(** * DocstringWalker: the marker-filtered docstring reader

    A shallow embedding of [llama_index/readers/docstring_walker/base.py]
    and the properties of its tree walk: the decorator test, the
    containment gate, the renderer and the per-file and per-directory
    drivers. *)

From Stdlib Require Import String Ascii List Bool Arith Lia Permutation.
Import ListNotations.
Local Open Scope list_scope.
Local Open Scope string_scope.
#[local] Set Warnings "-register-all".

(** ** Python values used by the walker *)

Module Py.

(** The line feed of the f-strings and of ["\n".join]. *)
Definition LF : string := String (ascii_of_nat 10) EmptyString.

(** A value that is either [None] or a [str]: what [process_elem] and
    [process_function] hand back. *)
Inductive value : Type :=
| PyNone
| PyStr (s : string).

(** Truth value of a [str]: only the empty string is falsy. *)
Definition str_truthy (s : string) : bool :=
  match s with
  | EmptyString => false
  | String _ _ => true
  end.

(** Truth value of [None | str], as tested by [if result:]. *)
Definition truthy (v : value) : bool :=
  match v with
  | PyNone => false
  | PyStr s => str_truthy s
  end.

(** [sep.join(parts)]. *)
Definition join (sep : string) (parts : list string) : string :=
  String.concat sep parts.

(** [x or ""] for [x : Optional[str]]. *)
Definition or_empty (x : option string) : string :=
  match x with
  | Some s => if str_truthy s then s else ""
  | None => ""
  end.

(** [s.endswith(suffix)]. *)
Fixpoint endswith (s suffix : string) : bool :=
  if String.eqb s suffix then true
  else match s with
       | EmptyString => false
       | String _ s' => endswith s' suffix
       end.

(** [s.replace(old, new)] for a non-empty [old]: every non-overlapping
    occurrence, leftmost first.  [skip] counts the characters of a
    matched occurrence that are still to be dropped. *)
Fixpoint replace_from (old new s : string) (skip : nat) : string :=
  match s with
  | EmptyString => EmptyString
  | String c s' =>
      match skip with
      | S k => replace_from old new s' k
      | O =>
          if String.prefix old s
          then new ++ replace_from old new s' (String.length old - 1)
          else String c (replace_from old new s' 0)
      end
  end.

Definition replace (s old new : string) : string := replace_from old new s 0.

End Py.

(** ** The syntax tree handed over by [ast.parse] *)

Module Ast.

(** Payload of an [ast.Constant]. *)
Inductive constant : Type :=
| CStr (s : string)
| CBytes (s : string)
| CInt (n : nat)
| CNone.

(** Expressions; only the classes the walker tests for are told apart. *)
Inductive expr : Type :=
| Name (id : string)
| Attribute (value : expr) (attr : string)
| Call (func : expr) (args : list expr) (keywords : list (option string * expr))
| Constant (value : constant)
| OtherExpr.

(** Statements.  [OtherStmt] stands for every statement class the walker
    has no test for; [blocks] holds the statements nested in it (the
    branches of an [if], the body of a [with], ...). *)
Inductive stmt : Type :=
| FunctionDef (name : string) (decorator_list : list expr) (body : list stmt)
| AsyncFunctionDef (name : string) (decorator_list : list expr) (body : list stmt)
| ClassDef (name : string) (decorator_list : list expr) (body : list stmt)
| Expr (value : expr)
| Pass
| OtherStmt (blocks : list stmt).

(** [ast.Module]. *)
Record Module : Type := { mod_body : list stmt }.

(** The class of a node, for [type(elem)] and [isinstance]; none of the
    classes below is a subclass of another. *)
Inductive node_type : Type :=
| TFunctionDef | TAsyncFunctionDef | TClassDef | TExpr | TPass | TOther.

Definition node_type_eqb (a b : node_type) : bool :=
  match a, b with
  | TFunctionDef, TFunctionDef | TAsyncFunctionDef, TAsyncFunctionDef
  | TClassDef, TClassDef | TExpr, TExpr | TPass, TPass | TOther, TOther => true
  | _, _ => false
  end.

Definition type_of (s : stmt) : node_type :=
  match s with
  | FunctionDef _ _ _ => TFunctionDef
  | AsyncFunctionDef _ _ _ => TAsyncFunctionDef
  | ClassDef _ _ _ => TClassDef
  | Expr _ => TExpr
  | Pass => TPass
  | OtherStmt _ => TOther
  end.

Definition isinstance (s : stmt) (t : node_type) : bool :=
  node_type_eqb (type_of s) t.

(** Attribute access.  The walker reads [name], [decorator_list] and
    [body] only from nodes of a class that has them; the other cases are
    never reached and are given an empty value. *)
Definition name (s : stmt) : string :=
  match s with
  | FunctionDef n _ _ | AsyncFunctionDef n _ _ | ClassDef n _ _ => n
  | _ => ""
  end.

Definition decorator_list (s : stmt) : list expr :=
  match s with
  | FunctionDef _ d _ | AsyncFunctionDef _ d _ | ClassDef _ d _ => d
  | _ => []
  end.

Definition body (s : stmt) : list stmt :=
  match s with
  | FunctionDef _ _ b | AsyncFunctionDef _ _ b | ClassDef _ _ b => b
  | _ => []
  end.

(** Induction over statements with the nested bodies covered. *)
Section StmtInd.
Variable P : stmt -> Prop.
Hypothesis HFunctionDef : forall n d b, Forall P b -> P (FunctionDef n d b).
Hypothesis HAsyncFunctionDef : forall n d b, Forall P b -> P (AsyncFunctionDef n d b).
Hypothesis HClassDef : forall n d b, Forall P b -> P (ClassDef n d b).
Hypothesis HExpr : forall e, P (Expr e).
Hypothesis HPass : P Pass.
Hypothesis HOtherStmt : forall b, Forall P b -> P (OtherStmt b).

Fixpoint stmt_nested_ind (s : stmt) : P s :=
  let all :=
    fix all (l : list stmt) : Forall P l :=
      match l with
      | [] => Forall_nil P
      | x :: r => Forall_cons x (stmt_nested_ind x) (all r)
      end in
  match s with
  | FunctionDef n d b => HFunctionDef n d b (all b)
  | AsyncFunctionDef n d b => HAsyncFunctionDef n d b (all b)
  | ClassDef n d b => HClassDef n d b (all b)
  | Expr e => HExpr e
  | Pass => HPass
  | OtherStmt b => HOtherStmt b (all b)
  end.
End StmtInd.

End Ast.

Import Ast.

(** ** The marker test and the containment gate *)

(** [has_decorator_factory]: the loop over [func_node.decorator_list]. *)
Fixpoint decorators_have_factory (decorators : list expr) (decorator_factory : string) : bool :=
  match decorators with
  | [] => false
  | decorator :: rest =>
      match decorator with
      | Call (Name id) _ _ =>
          if String.eqb id decorator_factory then true
          else decorators_have_factory rest decorator_factory
      | _ => decorators_have_factory rest decorator_factory
      end
  end.

Definition has_decorator_factory (func_node : stmt) (decorator_factory : string) : bool :=
  decorators_have_factory (decorator_list func_node) decorator_factory.

(** The test the loop of [module_has_decorator_factory] makes on one
    element of the body; for a class it is the same loop over the body of
    the class. *)
Fixpoint element_has_decorator_factory (element : stmt) (decorator_factory : string) : bool :=
  match element with
  | ClassDef _ _ class_body =>
      existsb (fun e => element_has_decorator_factory e decorator_factory) class_body
  | FunctionDef _ _ _ => has_decorator_factory element decorator_factory
  | _ => false
  end.

(** [module_has_decorator_factory(module, decorator_factory)], on the
    [body] of the module or class it is given. *)
Definition module_has_decorator_factory (module_body : list stmt) (decorator_factory : string) : bool :=
  existsb (fun element => element_has_decorator_factory element decorator_factory) module_body.

(** ** What the walker takes from its host

    The file reader, the parser, the docstring cleaner and the [os]
    functions are not part of the walker; they are an interface here, the
    way [read_module_text] is documented as replaceable in tests. *)

Inductive result (E A : Type) : Type :=
| Ok (a : A)
| Raise (e : E).
Arguments Ok {E A} a.
Arguments Raise {E A} e.

Class Host : Type := {
  (** raised objects, and whether one is an instance of [Exception] *)
  exn : Type;
  isinstance_Exception : exn -> bool;
  (** [open(path, encoding="utf-8").read()] *)
  read_text : string -> result exn string;
  (** [ast.parse] *)
  ast_parse : string -> result exn Module;
  (** [inspect.cleandoc], applied by [ast.get_docstring] *)
  inspect_cleandoc : string -> string;
  (** [os.walk], [os.path.join], [os.path.basename] *)
  os_walk : string -> list (string * list string * list string);
  os_path_join : string -> string -> string;
  os_path_basename : string -> string
}.

(** [llama_index.core.schema.Document], with the two fields the walker sets. *)
Record Document : Type := {
  text : string;
  metadata : list (string * string)
}.

(** A record handed to [log.warning]: the format string and its arguments. *)
Record LogRecord {H : Host} : Type := {
  log_msg : string;
  log_path : string;
  log_exc : exn
}.

Definition TYPES_TO_PROCESS : list node_type := [TFunctionDef; TClassDef].

(** [t in TYPES_TO_PROCESS]. *)
Definition in_types (t : node_type) (types : list node_type) : bool :=
  existsb (node_type_eqb t) types.

(** [if result: sub_texts.append(result)]. *)
Definition append_if_truthy (sub_texts : list string) (result_ : Py.value) : list string :=
  match result_ with
  | Py.PyStr s => if Py.str_truthy s then (sub_texts ++ [s])%list else sub_texts
  | Py.PyNone => sub_texts
  end.

(** The loop of [process_class] over a body, with the renderer of one
    element passed in. *)
Fixpoint class_sub_texts (render : stmt -> Py.value) (elems : list stmt)
    (sub_texts : list string) : list string :=
  match elems with
  | [] => sub_texts
  | elem :: rest =>
      class_sub_texts render rest (append_if_truthy sub_texts (render elem))
  end.

Section Walker.
Context {H : Host}.

(** [ast.get_docstring(node)], on the [body] of a node that may carry a
    docstring: the first statement, when it is a string constant. *)
Definition get_docstring (node_body : list stmt) : option string :=
  match node_body with
  | Expr (Constant (CStr doc)) :: _ => Some (inspect_cleandoc doc)
  | _ => None
  end.

(** [process_function]; the function ends without a [return] when the
    decorator is missing, which yields [None]. *)
Definition process_function (func_node : stmt) (parent_node : string) : Py.value :=
  if has_decorator_factory func_node "register_tool" then
    let func_name := name func_node in
    let func_docstring := Py.or_empty (get_docstring (body func_node)) in
    Py.PyStr (Py.LF ++ "Function: " ++ func_name ++ Py.LF ++ func_docstring)
  else Py.PyNone.

(** [process_elem], with the body of [process_class] in its class case. *)
Fixpoint process_elem (elem : stmt) (parent_node : string) : Py.value :=
  match elem with
  | FunctionDef _ _ _ => process_function elem parent_node
  | ClassDef class_name _ class_body =>
      Py.PyStr (Py.join Py.LF
        (class_sub_texts (fun e => process_elem e class_name) class_body []))
  | _ => Py.PyStr ""
  end.

(** [process_class]. *)
Definition process_class (class_node : stmt) (parent_node : string) : Py.value :=
  Py.PyStr (Py.join Py.LF
    (class_sub_texts (fun e => process_elem e (name class_node)) (body class_node) [])).

(** The loop of [parse_module] over [module.body]. *)
Fixpoint module_sub_texts (module_name : string) (elems : list stmt)
    (sub_texts : list string) : list string :=
  match elems with
  | [] => sub_texts
  | elem :: rest =>
      module_sub_texts module_name rest
        (if in_types (type_of elem) TYPES_TO_PROCESS
         then append_if_truthy sub_texts (process_elem elem module_name)
         else sub_texts)
  end.

(** [parse_module]: [Ok None] is the [return None] of a skipped module,
    [Raise e] an exception leaving the function. *)
Definition parse_module (module_name path : string) : result exn (option Document) :=
  match read_text path with
  | Raise e => Raise e
  | Ok module_text =>
      match ast_parse module_text with
      | Raise e => Raise e
      | Ok module =>
          let has_register_tool_function :=
            module_has_decorator_factory (mod_body module) "register_tool" in
          if negb has_register_tool_function then Ok None
          else
            let module_docstring := get_docstring (mod_body module) in
            let module_text := "Module: " ++ module_name ++ " " ++ Py.LF in
            let module_text :=
              match module_docstring with
              | Some doc =>
                  if Py.str_truthy doc
                  then module_text ++ "Docstring: " ++ doc ++ " " ++ Py.LF
                  else module_text
              | None => module_text
              end in
            let sub_texts := module_sub_texts module_name (mod_body module) [] in
            let module_text := module_text ++ Py.join Py.LF sub_texts in
            let file_name := os_path_basename path in
            Ok (Some {| text := module_text;
                        metadata := [("file_name", file_name)] |})
      end
  end.

End Walker.

(** ** The directory driver

    [process_directory] logs and raises; both are explicit here: a
    computation takes the records logged so far and gives back either a
    value or the raised object, with the log as it then stands. *)

Definition Run {H : Host} (A : Type) : Type :=
  list LogRecord -> result exn A * list LogRecord.

Section Driver.
Context {H : Host}.

Definition ret {A : Type} (a : A) : Run A := fun log => (Ok a, log).

Definition bind {A B : Type} (m : Run A) (k : A -> Run B) : Run B :=
  fun log =>
    match m log with
    | (Ok a, log') => k a log'
    | (Raise e, log') => (Raise e, log')
    end.

Definition raise {A : Type} (e : exn) : Run A := fun log => (Raise e, log).

(** A call that may raise and does not log. *)
Definition lift {A : Type} (r : result exn A) : Run A := fun log => (r, log).

(** [try: body / except Exception as e: handler e]. *)
Definition try_except_Exception {A : Type} (body : Run A) (handler : exn -> Run A) : Run A :=
  fun log =>
    match body log with
    | (Ok a, log') => (Ok a, log')
    | (Raise e, log') =>
        if isinstance_Exception e then handler e log' else (Raise e, log')
    end.

(** The record of
    [log.warning("Failed to parse file %s. Skipping. Error: %s", module_path, e)]. *)
Definition warning_for (module_path : string) (e : exn) : LogRecord :=
  {| log_msg := "Failed to parse file %s. Skipping. Error: %s";
     log_path := module_path;
     log_exc := e |}.

Definition log_warning (module_path : string) (e : exn) : Run unit :=
  fun log => (Ok tt, (log ++ [warning_for module_path e])%list).

Notation "x <- m ;; k" := (bind m (fun x => k))
  (at level 61, m at next level, right associativity).

(** The [try] statement of [process_directory]; a [Document] is truthy,
    so [if doc:] separates a document from [None]. *)
Definition try_parse_module (fail_on_malformed_files : bool)
    (module_name module_path : string) (llama_docs : list Document)
    : Run (list Document) :=
  try_except_Exception
    (doc <- lift (parse_module module_name module_path) ;;
     ret (match doc with
          | Some d => (llama_docs ++ [d])%list
          | None => llama_docs
          end))
    (fun e =>
       if fail_on_malformed_files then raise e
       else (_ <- log_warning module_path e ;; ret llama_docs)).

(** The body of the inner [for file in files] loop. *)
Definition process_file (skip_initpy fail_on_malformed_files : bool)
    (root file : string) (llama_docs : list Document) : Run (list Document) :=
  if Py.endswith file ".py" then
    if skip_initpy && String.eqb file "__init__.py" then ret llama_docs
    else
      let module_name := Py.replace file ".py" "" in
      let module_path := os_path_join root file in
      try_parse_module fail_on_malformed_files module_name module_path llama_docs
  else ret llama_docs.

Fixpoint process_files (skip_initpy fail_on_malformed_files : bool)
    (root : string) (files : list string) (llama_docs : list Document)
    : Run (list Document) :=
  match files with
  | [] => ret llama_docs
  | file :: rest =>
      docs <- process_file skip_initpy fail_on_malformed_files root file llama_docs ;;
      process_files skip_initpy fail_on_malformed_files root rest docs
  end.

(** The outer loop, over what [os.walk] yields. *)
Fixpoint process_walk (skip_initpy fail_on_malformed_files : bool)
    (entries : list (string * list string * list string))
    (llama_docs : list Document) : Run (list Document) :=
  match entries with
  | [] => ret llama_docs
  | (root, _, files) :: rest =>
      docs <- process_files skip_initpy fail_on_malformed_files root files llama_docs ;;
      process_walk skip_initpy fail_on_malformed_files rest docs
  end.

Definition process_directory (code_dir : string)
    (skip_initpy fail_on_malformed_files : bool) : Run (list Document) :=
  process_walk skip_initpy fail_on_malformed_files (os_walk code_dir) [].

Definition load_data (code_dir : string)
    (skip_initpy fail_on_malformed_files : bool) : Run (list Document) :=
  process_directory code_dir skip_initpy fail_on_malformed_files.

(** The [try] statement run over a list of (module name, module path)
    pairs: what the two loops come to once the files they skip are left
    out. *)
Fixpoint run_candidates (fail_on_malformed_files : bool)
    (cands : list (string * string)) (llama_docs : list Document)
    : Run (list Document) :=
  match cands with
  | [] => ret llama_docs
  | c :: rest =>
      docs <- try_parse_module fail_on_malformed_files (fst c) (snd c) llama_docs ;;
      run_candidates fail_on_malformed_files rest docs
  end.

End Driver.

(** ** Notions the properties are stated with *)

(** A decorator that is a call whose callee is the bare name [factory]. *)
Definition is_factory_call (factory : string) (decorator : expr) : Prop :=
  exists args keywords, decorator = Call (Name factory) args keywords.

(** A decorator list with such a call in it. *)
Definition marked (factory : string) (decorators : list expr) : Prop :=
  exists decorator, In decorator decorators /\ is_factory_call factory decorator.

(** A body with a marked function among its children, or among the
    children of a class among its children, and so on through classes. *)
Inductive contains_marked (factory : string) : list stmt -> Prop :=
| contains_marked_function (n : string) (d : list expr) (b children : list stmt) :
    In (FunctionDef n d b) children ->
    marked factory d ->
    contains_marked factory children
| contains_marked_class (n : string) (d : list expr) (b children : list stmt) :
    In (ClassDef n d b) children ->
    contains_marked factory b ->
    contains_marked factory children.

(** The non-empty strings among rendered results, in order. *)
Definition non_empty_fragments (results : list Py.value) : list string :=
  flat_map (fun r => match r with
                     | Py.PyStr (String c s) => [String c s]
                     | _ => []
                     end) results.

(** The top-level declarations that are functions or classes. *)
Definition is_function_or_class (s : stmt) : bool :=
  match s with
  | FunctionDef _ _ _ | ClassDef _ _ _ => true
  | _ => false
  end.

(** [needle] occurs in [hay]. *)
Definition occurs_in (needle hay : string) : Prop :=
  exists before after, hay = before ++ needle ++ after.

(** A synchronous function carrying the marker anywhere in the tree
    under [s]: in class bodies, function bodies and nested blocks alike. *)
Fixpoint marks_sync_function (factory : string) (s : stmt) : bool :=
  match s with
  | FunctionDef _ d b =>
      decorators_have_factory d factory || existsb (marks_sync_function factory) b
  | AsyncFunctionDef _ _ b => existsb (marks_sync_function factory) b
  | ClassDef _ _ b => existsb (marks_sync_function factory) b
  | OtherStmt b => existsb (marks_sync_function factory) b
  | Expr _ => false
  | Pass => false
  end.

(** The tree with the body of every function reachable through class
    nesting emptied. *)
Fixpoint erase_function_bodies (s : stmt) : stmt :=
  match s with
  | FunctionDef n d _ => FunctionDef n d []
  | ClassDef n d b => ClassDef n d (map erase_function_bodies b)
  | _ => s
  end.

Section Batch.
Context {H : Host}.

(** Whether the loops of [process_directory] hand a file name on to
    [parse_module]. *)
Definition selected (skip_initpy : bool) (file : string) : bool :=
  Py.endswith file ".py" && negb (skip_initpy && String.eqb file "__init__.py").

(** The (module name, module path) pairs handed to [parse_module], in
    the order of the walk. *)
Definition candidates (code_dir : string) (skip_initpy : bool) : list (string * string) :=
  flat_map
    (fun entry : string * list string * list string =>
       let '(root, _, files) := entry in
       map (fun file => (Py.replace file ".py" "", os_path_join root file))
           (filter (selected skip_initpy) files))
    (os_walk code_dir).

(** The documents of the candidates that give one. *)
Definition documents_of (cands : list (string * string)) : list Document :=
  flat_map (fun c => match parse_module (fst c) (snd c) with
                     | Ok (Some d) => [d]
                     | _ => []
                     end) cands.

(** One warning for each candidate on which [parse_module] raises. *)
Definition warnings_of (cands : list (string * string)) : list LogRecord :=
  flat_map (fun c => match parse_module (fst c) (snd c) with
                     | Raise e => [warning_for (snd c) e]
                     | Ok _ => []
                     end) cands.

(** [parse_module] returns on the candidate, with or without a document. *)
Definition parses (c : string * string) : Prop :=
  exists doc, parse_module (fst c) (snd c) = Ok doc.

End Batch.

(** ** A host to run the walker on

    A small in-memory file system with a table in place of the parser,
    used to run the definitions on concrete inputs. *)

Module Example.

Inductive example_exn : Type :=
| FileNotFoundError (path : string)
| SyntaxError (msg : string)
| KeyboardInterrupt.

Definition register_tool_call : expr := Call (Name "register_tool") [] [].

(** [mod.py]: a docstring, a marked function [f] and an unmarked [g]. *)
Definition mod_tree : Module :=
  {| mod_body :=
       [ Expr (Constant (CStr "desc"));
         FunctionDef "f" [register_tool_call] [Expr (Constant (CStr "does f"))];
         FunctionDef "g" [] [Pass] ] |}.

(** [cls.py]: a class [C] with a marked method [m] without a docstring
    and an unmarked method [n]. *)
Definition cls_tree : Module :=
  {| mod_body :=
       [ ClassDef "C" []
           [ FunctionDef "m" [register_tool_call] [Pass];
             FunctionDef "n" [] [Pass] ] ] |}.

(** [plain.py]: nothing marked. *)
Definition plain_tree : Module :=
  {| mod_body := [ FunctionDef "g" [] [Pass] ] |}.

(** [aio.py]: the only marked function is asynchronous. *)
Definition aio_tree : Module :=
  {| mod_body :=
       [ AsyncFunctionDef "fetch" [register_tool_call] [Expr (Constant (CStr "fetches"))];
         ClassDef "K" [] [ AsyncFunctionDef "run" [register_tool_call] [Pass] ] ] |}.

Definition files : list (string * string) :=
  [ ("pkg/mod.py", "<mod>"); ("pkg/cls.py", "<cls>"); ("pkg/plain.py", "<plain>");
    ("pkg/aio.py", "<aio>"); ("pkg/broken.py", "def (") ].

Definition trees : list (string * Module) :=
  [ ("<mod>", mod_tree); ("<cls>", cls_tree); ("<plain>", plain_tree); ("<aio>", aio_tree) ].

Fixpoint lookup {A : Type} (key : string) (table : list (string * A)) : option A :=
  match table with
  | [] => None
  | (k, v) :: rest => if String.eqb k key then Some v else lookup key rest
  end.

(** [posixpath.join] of two components. *)
Definition posix_join (a b : string) : string :=
  if String.prefix "/" b then b
  else if String.eqb a "" || Py.endswith a "/" then a ++ b
  else a ++ "/" ++ b.

Fixpoint has_sep (p : string) : bool :=
  match p with
  | EmptyString => false
  | String c p' => Ascii.eqb c "/" || has_sep p'
  end.

(** [posixpath.basename]: what follows the last separator. *)
Fixpoint posix_basename (p : string) : string :=
  match p with
  | EmptyString => EmptyString
  | String c p' =>
      if has_sep p' then posix_basename p'
      else if Ascii.eqb c "/" then p' else p
  end.

(** The host: [KeyboardInterrupt] is the one raised object that is not
    an [Exception]; the docstrings of the trees above have no
    indentation or blank lines to remove, so cleaning leaves them as
    they are; the walk yields one directory. *)
#[export] Instance host : Host := {|
  exn := example_exn;
  isinstance_Exception := fun e =>
    match e with KeyboardInterrupt => false | _ => true end;
  read_text := fun path =>
    match lookup path files with
    | Some source => Ok source
    | None => Raise (FileNotFoundError path)
    end;
  ast_parse := fun source =>
    match lookup source trees with
    | Some tree => Ok tree
    | None => Raise (SyntaxError "invalid syntax")
    end;
  inspect_cleandoc := fun doc => doc;
  os_walk := fun code_dir =>
    [ (code_dir, [], ["mod.py"; "broken.py"; "__init__.py"; "notes.txt"; "cls.py"; "plain.py"]) ];
  os_path_join := posix_join;
  os_path_basename := posix_basename
|}.

End Example.

(** ** Notions for the properties of the whole walk *)

Section Blocks.
Context {H : Host}.

(** The text [process_function] builds for a marked function. *)
Definition function_block (n : string) (b : list stmt) : string :=
  Py.LF ++ "Function: " ++ n ++ Py.LF ++ Py.or_empty (get_docstring b).

(** The blocks of the marked functions under [s] that are reached
    through classes only, in source order. *)
Fixpoint marked_blocks (s : stmt) : list string :=
  match s with
  | FunctionDef n d b =>
      if decorators_have_factory d "register_tool" then [function_block n b] else []
  | ClassDef _ _ b => flat_map marked_blocks b
  | _ => []
  end.

End Blocks.

(** A list of blocks as one fragment, or no fragment when there is no
    block. *)
Definition joined (blocks : list string) : list string :=
  match blocks with
  | [] => []
  | _ :: _ => [Py.join Py.LF blocks]
  end.

(** No full stop in the string. *)
Fixpoint dot_free (s : string) : bool :=
  match s with
  | EmptyString => true
  | String c s' => negb (Ascii.eqb c ".") && dot_free s'
  end.

(** An entry of the walk with the directory names dropped and only the
    file names kept that are handed on to [parse_module]. *)
Definition selected_only (skip_initpy : bool)
    (entry : string * list string * list string) : string * list string * list string :=
  let '(root, _, files) := entry in
  (root, [], filter (selected skip_initpy) files).

(** A host with two directory trees: [src], where every file parses,
    and [bad], with a file that does not parse and a read that is
    interrupted. *)
Module Nested.

Definition files : list (string * string) :=
  [ ("src/mod.py", "<mod>"); ("src/util/__init__.py", "<plain>");
    ("src/util/cls.py", "<cls>"); ("src/util/plain.py", "<plain>");
    ("bad/a.py", "<cls>"); ("bad/b.py", "def ("); ("bad/d.py", "<mod>") ].

Definition host : Host := {|
  exn := Example.example_exn;
  isinstance_Exception := fun e =>
    match e with Example.KeyboardInterrupt => false | _ => true end;
  read_text := fun path =>
    if String.eqb path "bad/c.py" then Raise Example.KeyboardInterrupt
    else match Example.lookup path files with
         | Some source => Ok source
         | None => Raise (Example.FileNotFoundError path)
         end;
  ast_parse := fun source =>
    match Example.lookup source Example.trees with
    | Some tree => Ok tree
    | None => Raise (Example.SyntaxError "invalid syntax")
    end;
  inspect_cleandoc := fun doc => doc;
  os_walk := fun code_dir =>
    if String.eqb code_dir "src" then
      [ ("src", ["util"], ["mod.py"; "README.md"]);
        ("src/util", [], ["__init__.py"; "cls.py"; "cls.pyc"; "plain.py"]) ]
    else if String.eqb code_dir "bad" then
      [ ("bad", [], ["a.py"; "b.py"; "c.py"; "d.py"]) ]
    else [];
  os_path_join := Example.posix_join;
  os_path_basename := Example.posix_basename
|}.

End Nested.

(** ** The marker test *)

Lemma decorators_have_factory_marked (factory : string) (decorators : list expr) :
  decorators_have_factory decorators factory = true <-> marked factory decorators.
Proof.
  unfold marked, is_factory_call.
  induction decorators as [|decorator rest IH]; simpl.
  - split; [discriminate | intros (x & [] & _)].
  - assert (Hskip :
        (forall id args keywords, decorator = Call (Name id) args keywords -> id <> factory) ->
        (decorators_have_factory rest factory = true <->
         exists x, (decorator = x \/ In x rest) /\
                   exists args keywords, x = Call (Name factory) args keywords)).
    { intros Hno. rewrite IH. split.
      - intros (x & Hin & Hx). exists x. auto.
      - intros (x & [<- | Hin] & args & keywords & Hx).
        + exfalso. exact (Hno _ _ _ Hx eq_refl).
        + exists x. eauto. }
    destruct decorator as [id | v a | fn args keywords | c |];
      try (apply Hskip; intros; discriminate).
    destruct fn as [id | v a | fn' args' keywords' | c |];
      try (apply Hskip; intros ? ? ? Heq; discriminate Heq).
    destruct (String.eqb_spec id factory) as [-> | Hne].
    + split; [intros _ | reflexivity].
      exists (Call (Name factory) args keywords). split; [now left | eauto].
    + apply Hskip. intros ? ? ? Heq. injection Heq as -> _ _. exact Hne.
Qed.

(** C6: on a function, class or async function declaration,
    [has_decorator_factory] answers true exactly when the decorator list
    holds a call whose callee is the bare name [factory].  A decorator
    that is a bare name, an attribute or a call through an attribute
    never matches, a call of a bare name matches exactly when the name
    is [factory], and the body of the declaration plays no part. *)
Theorem has_decorator_factory_spec (factory : string) :
  (forall n d b,
      (has_decorator_factory (FunctionDef n d b) factory = true <-> marked factory d) /\
      (has_decorator_factory (ClassDef n d b) factory = true <-> marked factory d) /\
      (has_decorator_factory (AsyncFunctionDef n d b) factory = true <-> marked factory d)) /\
  (forall n b id,
      has_decorator_factory (FunctionDef n [Name id] b) factory = false) /\
  (forall n b v attr,
      has_decorator_factory (FunctionDef n [Attribute v attr] b) factory = false) /\
  (forall n b v attr args keywords,
      has_decorator_factory (FunctionDef n [Call (Attribute v attr) args keywords] b) factory
      = false) /\
  (forall n b id args keywords,
      has_decorator_factory (FunctionDef n [Call (Name id) args keywords] b) factory
      = String.eqb id factory) /\
  (forall n d b b',
      has_decorator_factory (FunctionDef n d b) factory
      = has_decorator_factory (FunctionDef n d b') factory).
Proof.
  repeat split; try reflexivity;
    try (apply decorators_have_factory_marked);
    try (intro Hm; apply decorators_have_factory_marked in Hm; exact Hm).
  intros n b id args keywords. unfold has_decorator_factory. simpl.
  now destruct (String.eqb id factory).
Qed.

(** ** The containment gate *)

Lemma element_has_decorator_factory_class (n : string) (d : list expr) (b : list stmt)
    (factory : string) :
  element_has_decorator_factory (ClassDef n d b) factory
  = module_has_decorator_factory b factory.
Proof. reflexivity. Qed.

Lemma element_has_decorator_factory_inv (factory : string) (s : stmt) :
  element_has_decorator_factory s factory = true ->
  (exists n d b, s = FunctionDef n d b /\ marked factory d) \/
  (exists n d b, s = ClassDef n d b /\ contains_marked factory b).
Proof.
  induction s as [n d b _ | n d b _ | n d b IH | e | | b _] using stmt_nested_ind;
    simpl; try discriminate.
  - intros Hm. left. exists n, d, b. split; [reflexivity|].
    now apply decorators_have_factory_marked.
  - intros Hex. right. exists n, d, b. split; [reflexivity|].
    apply existsb_exists in Hex. destruct Hex as (x & Hin & Hx).
    rewrite Forall_forall in IH.
    destruct (IH x Hin Hx) as [(n' & d' & b' & -> & Hm) | (n' & d' & b' & -> & Hc)].
    + eapply contains_marked_function; eauto.
    + eapply contains_marked_class; eauto.
Qed.

Lemma module_has_decorator_factory_contains (factory : string) (children : list stmt) :
  module_has_decorator_factory children factory = true <-> contains_marked factory children.
Proof.
  split.
  - intros Hex. apply existsb_exists in Hex. destruct Hex as (x & Hin & Hx).
    destruct (element_has_decorator_factory_inv factory x Hx)
      as [(n & d & b & -> & Hm) | (n & d & b & -> & Hc)].
    + eapply contains_marked_function; eauto.
    + eapply contains_marked_class; eauto.
  - induction 1 as [n d b children Hin Hm | n d b children Hin _ IH];
      apply existsb_exists.
    + exists (FunctionDef n d b). split; [exact Hin|].
      now apply decorators_have_factory_marked.
    + exists (ClassDef n d b). split; [exact Hin | exact IH].
Qed.

Lemma element_has_decorator_factory_erase (factory : string) (s : stmt) :
  element_has_decorator_factory (erase_function_bodies s) factory
  = element_has_decorator_factory s factory.
Proof.
  induction s as [n d b _ | n d b _ | n d b IH | e | | b _] using stmt_nested_ind;
    try reflexivity.
  simpl. induction IH as [|x r Hx _ IHr]; simpl; [reflexivity|].
  now rewrite Hx, IHr.
Qed.

(** C3: the gate answers true exactly when a marked function is a child
    of the body or of a class reachable from it through classes: a child
    is a class whose body passes the gate, or a function carrying the
    marker.  Function bodies are never looked into; the empty body
    fails; a marked function three classes deep passes; a marker found
    only on a function inside a function fails. *)
Theorem module_has_decorator_factory_spec (factory : string) :
  (forall children,
      module_has_decorator_factory children factory = true
      <-> contains_marked factory children) /\
  (forall children,
      module_has_decorator_factory children factory = true
      <-> exists child, In child children /\
            ((exists n d b, child = ClassDef n d b /\
                            module_has_decorator_factory b factory = true) \/
             (exists n d b, child = FunctionDef n d b /\ marked factory d))) /\
  (forall children,
      module_has_decorator_factory (map erase_function_bodies children) factory
      = module_has_decorator_factory children factory) /\
  module_has_decorator_factory [] factory = false /\
  (forall n b args keywords,
      module_has_decorator_factory
        [FunctionDef n [Call (Name factory) args keywords] b] factory = true) /\
  (forall c1 d1 c2 d2 c3 d3 n b args keywords,
      module_has_decorator_factory
        [ClassDef c1 d1 [ClassDef c2 d2 [ClassDef c3 d3
           [FunctionDef n [Call (Name factory) args keywords] b]]]] factory = true) /\
  (forall outer inner b args keywords,
      module_has_decorator_factory
        [FunctionDef outer []
           [FunctionDef inner [Call (Name factory) args keywords] b]] factory = false).
Proof.
  split; [intro; apply module_has_decorator_factory_contains|].
  split.
  { intro children. unfold module_has_decorator_factory at 1.
    rewrite existsb_exists. split.
    - intros (x & Hin & Hx). exists x. split; [exact Hin|].
      destruct x as [n d b | n d b | n d b | e | | b]; simpl in Hx; try discriminate.
      + right. exists n, d, b. split; [reflexivity|].
        now apply decorators_have_factory_marked.
      + left. exists n, d, b. split; [reflexivity | exact Hx].
    - intros (x & Hin & [(n & d & b & Heq & Hb) | (n & d & b & Heq & Hm)]);
        exists x; subst x; (split; [exact Hin|]).
      + exact Hb.
      + now apply decorators_have_factory_marked. }
  split.
  { intro children. unfold module_has_decorator_factory.
    induction children as [|x r IH]; simpl; [reflexivity|].
    now rewrite element_has_decorator_factory_erase, IH. }
  split; [reflexivity|].
  repeat split; intros;
    cbv [module_has_decorator_factory existsb element_has_decorator_factory
         has_decorator_factory decorator_list decorators_have_factory];
    rewrite ?String.eqb_refl; reflexivity.
Qed.

(** ** The renderer *)

Lemma or_empty_match (x : option string) :
  Py.or_empty x = match x with Some doc => doc | None => "" end.
Proof. destruct x as [[|c s]|]; reflexivity. Qed.

Lemma non_empty_fragments_app (xs ys : list Py.value) :
  non_empty_fragments (xs ++ ys) = (non_empty_fragments xs ++ non_empty_fragments ys)%list.
Proof. apply flat_map_app. Qed.

Lemma append_if_truthy_fragments (sub_texts : list string) (r : Py.value) :
  append_if_truthy sub_texts r = (sub_texts ++ non_empty_fragments [r])%list.
Proof.
  destruct r as [|[|c s]]; simpl; now rewrite ?app_nil_r.
Qed.

Lemma class_sub_texts_fragments (render : stmt -> Py.value) (elems : list stmt) :
  forall sub_texts,
    class_sub_texts render elems sub_texts
    = (sub_texts ++ non_empty_fragments (map render elems))%list.
Proof.
  induction elems as [|elem rest IH]; intro sub_texts; simpl.
  - now rewrite app_nil_r.
  - rewrite IH, append_if_truthy_fragments. simpl.
    now rewrite app_nil_r, <- app_assoc.
Qed.

Lemma non_empty_fragments_nil (results : list Py.value) :
  (forall r, In r results -> Py.truthy r = false) ->
  non_empty_fragments results = [].
Proof.
  induction results as [|r rest IH]; intro Hall; [reflexivity|].
  simpl. rewrite IH by (intros; apply Hall; now right).
  specialize (Hall r (or_introl eq_refl)).
  destruct r as [|[|c s]]; simpl in *; [reflexivity | reflexivity | discriminate].
Qed.

Section Rendering.
Context {H : Host}.

Lemma process_function_unmarked (n : string) (d : list expr) (b : list stmt)
    (parent : string) :
  decorators_have_factory d "register_tool" = false ->
  process_function (FunctionDef n d b) parent = Py.PyNone.
Proof.
  intro Hd. unfold process_function, has_decorator_factory. simpl. now rewrite Hd.
Qed.

Lemma process_function_text (n : string) (d : list expr) (b : list stmt)
    (parent : string) :
  decorators_have_factory d "register_tool" = true ->
  process_function (FunctionDef n d b) parent
  = Py.PyStr (Py.LF ++ "Function: " ++ n ++ Py.LF
              ++ match get_docstring b with Some doc => doc | None => "" end).
Proof.
  intro Hd. unfold process_function, has_decorator_factory. simpl. rewrite Hd.
  now rewrite or_empty_match.
Qed.

Lemma process_elem_class (n : string) (d : list expr) (b : list stmt) (parent : string) :
  process_elem (ClassDef n d b) parent
  = Py.PyStr (Py.join Py.LF
      (non_empty_fragments (map (fun child => process_elem child n) b))).
Proof.
  simpl. now rewrite class_sub_texts_fragments.
Qed.

(** C2, at a function without decorators: the renderer is specified
    to return the empty string there; [process_function] reaches its end
    without a [return], so what comes back, from it and from
    [process_elem], is [None], which is not the empty string. *)
Theorem process_function_unmarked_returns_None :
  process_function (FunctionDef "g" [] [Pass]) "mod" = Py.PyNone /\
  process_elem (FunctionDef "g" [] [Pass]) "mod" = Py.PyNone /\
  Py.PyNone <> Py.PyStr "".
Proof.
  repeat split. discriminate.
Qed.

(** C5: a function whose decorator list holds a call of the bare name
    [register_tool] is rendered as a line feed, [Function: ] and its
    name, a line feed, and its docstring, the last being empty when the
    function has none. *)
Theorem process_function_marked (n : string) (d : list expr) (b : list stmt)
    (parent : string) :
  marked "register_tool" d ->
  process_function (FunctionDef n d b) parent
  = Py.PyStr (Py.LF ++ "Function: " ++ n ++ Py.LF
              ++ match get_docstring b with Some doc => doc | None => "" end) /\
  process_elem (FunctionDef n d b) parent
  = process_function (FunctionDef n d b) parent.
Proof.
  intro Hm. split; [|reflexivity].
  apply process_function_text. now apply decorators_have_factory_marked.
Qed.

(** C4: a class is rendered as the line-feed join of the non-empty
    results of rendering its direct children, in body order, with the
    class name as their parent; the decorators of the class play no
    part, and the result is the empty string when no child gives a
    non-empty result. *)
Theorem process_class_spec (n : string) (d : list expr) (b : list stmt)
    (parent : string) :
  process_class (ClassDef n d b) parent
  = Py.PyStr (Py.join Py.LF
      (non_empty_fragments (map (fun child => process_elem child n) b))) /\
  process_elem (ClassDef n d b) parent = process_class (ClassDef n d b) parent /\
  (forall d', process_class (ClassDef n d' b) parent
              = process_class (ClassDef n d b) parent) /\
  ((forall child, In child b -> Py.truthy (process_elem child n) = false) ->
   process_class (ClassDef n d b) parent = Py.PyStr "").
Proof.
  assert (Hc : process_class (ClassDef n d b) parent
               = Py.PyStr (Py.join Py.LF
                   (non_empty_fragments (map (fun child => process_elem child n) b)))).
  { unfold process_class. simpl. now rewrite class_sub_texts_fragments. }
  split; [exact Hc|]. split; [reflexivity|]. split; [reflexivity|].
  intro Hall. rewrite Hc, non_empty_fragments_nil; [reflexivity|].
  intros r Hin. apply in_map_iff in Hin. destruct Hin as (child & <- & Hin).
  now apply Hall.
Qed.

End Rendering.

(** ** Strings and occurrences *)

Lemma string_app_assoc (a b c : string) : (a ++ b) ++ c = a ++ b ++ c.
Proof. induction a as [|x a IH]; simpl; [reflexivity | now rewrite IH]. Qed.

Lemma string_app_empty_r (a : string) : a ++ "" = a.
Proof. induction a as [|x a IH]; simpl; [reflexivity | now rewrite IH]. Qed.

Lemma occurs_in_refl_prefix (needle rest : string) : occurs_in needle (needle ++ rest).
Proof. exists "", rest. reflexivity. Qed.

Lemma occurs_in_app_l (needle a b : string) :
  occurs_in needle a -> occurs_in needle (a ++ b).
Proof.
  intros (before & after & ->). exists before, (after ++ b).
  now rewrite !string_app_assoc.
Qed.

Lemma occurs_in_app_r (needle a b : string) :
  occurs_in needle b -> occurs_in needle (a ++ b).
Proof.
  intros (before & after & ->). exists (a ++ before), after.
  now rewrite !string_app_assoc.
Qed.

Lemma occurs_in_join (needle sep s : string) (parts : list string) :
  In s parts -> occurs_in needle s -> occurs_in needle (Py.join sep parts).
Proof.
  intros Hin Hocc. unfold Py.join.
  induction parts as [|x rest IH]; [destruct Hin|].
  destruct rest as [|y rest'].
  - destruct Hin as [-> | []]. exact Hocc.
  - change (occurs_in needle (x ++ sep ++ String.concat sep (y :: rest'))).
    destruct Hin as [-> | Hin].
    + now apply occurs_in_app_l.
    + apply occurs_in_app_r, occurs_in_app_r. now apply IH.
Qed.

Lemma occurs_in_truthy (c : ascii) (needle hay : string) :
  occurs_in (String c needle) hay -> Py.str_truthy hay = true.
Proof.
  intros (before & after & ->). destruct before; reflexivity.
Qed.

Lemma in_non_empty_fragments (t : string) (results : list Py.value) :
  In (Py.PyStr t) results -> Py.str_truthy t = true ->
  In t (non_empty_fragments results).
Proof.
  intros Hin Ht. unfold non_empty_fragments. apply in_flat_map.
  exists (Py.PyStr t). split; [exact Hin|].
  destruct t; [discriminate | now left].
Qed.

(** ** The file synthesizer *)

Lemma in_types_function_or_class (s : stmt) :
  in_types (type_of s) TYPES_TO_PROCESS = is_function_or_class s.
Proof. destruct s; reflexivity. Qed.

Section Synthesizer.
Context {H : Host}.

Lemma module_sub_texts_fragments (module_name : string) (elems : list stmt) :
  forall sub_texts,
    module_sub_texts module_name elems sub_texts
    = (sub_texts ++ non_empty_fragments
         (map (fun elem => process_elem elem module_name)
              (filter is_function_or_class elems)))%list.
Proof.
  induction elems as [|elem rest IH]; intro sub_texts; cbn [module_sub_texts filter].
  - simpl. now rewrite app_nil_r.
  - rewrite IH, in_types_function_or_class.
    destruct (is_function_or_class elem); [|reflexivity].
    rewrite append_if_truthy_fragments. simpl.
    now rewrite app_nil_r, <- app_assoc.
Qed.

(** The text [parse_module] builds for a module that passes the gate. *)
Lemma parse_module_qualifying (module_name path source : string) (module : Module) :
  read_text path = Ok source ->
  ast_parse source = Ok module ->
  module_has_decorator_factory (mod_body module) "register_tool" = true ->
  parse_module module_name path
  = Ok (Some
      {| text :=
           ("Module: " ++ module_name ++ " " ++ Py.LF
            ++ match get_docstring (mod_body module) with
               | Some (String c doc) => "Docstring: " ++ String c doc ++ " " ++ Py.LF
               | _ => ""
               end)
           ++ Py.join Py.LF
                (non_empty_fragments
                   (map (fun elem => process_elem elem module_name)
                        (filter is_function_or_class (mod_body module))));
         metadata := [("file_name", os_path_basename path)] |}).
Proof.
  intros Hread Hparse Hgate. unfold parse_module.
  rewrite Hread, Hparse, Hgate. simpl negb. cbv iota.
  rewrite module_sub_texts_fragments. simpl app.
  destruct (get_docstring (mod_body module)) as [[|c doc]|];
    cbn [Py.str_truthy]; do 3 f_equal;
    rewrite ?string_app_assoc; simpl; rewrite ?string_app_assoc; reflexivity.
Qed.

Lemma parse_module_not_qualifying (module_name path source : string) (module : Module) :
  read_text path = Ok source ->
  ast_parse source = Ok module ->
  module_has_decorator_factory (mod_body module) "register_tool" = false ->
  parse_module module_name path = Ok None.
Proof.
  intros Hread Hparse Hgate. unfold parse_module.
  now rewrite Hread, Hparse, Hgate.
Qed.

End Synthesizer.

Lemma element_has_function_or_class (factory : string) (s : stmt) :
  element_has_decorator_factory s factory = true -> is_function_or_class s = true.
Proof. destruct s; simpl; congruence. Qed.

Lemma element_has_marks_sync_function (factory : string) (s : stmt) :
  element_has_decorator_factory s factory = true ->
  marks_sync_function factory s = true.
Proof.
  induction s as [n d b _ | n d b _ | n d b IH | e | | b _] using stmt_nested_ind;
    simpl; try discriminate.
  - unfold has_decorator_factory. simpl. intros ->. reflexivity.
  - intro Hex. apply existsb_exists in Hex. destruct Hex as (x & Hin & Hx).
    apply existsb_exists. exists x. split; [exact Hin|].
    rewrite Forall_forall in IH. now apply IH.
Qed.

Lemma module_has_decorator_factory_async (factory : string)
    (before after : list stmt) (n : string) (d : list expr) (b : list stmt) :
  module_has_decorator_factory (before ++ AsyncFunctionDef n d b :: after) factory
  = module_has_decorator_factory (before ++ after) factory.
Proof.
  unfold module_has_decorator_factory. now rewrite !existsb_app.
Qed.

Section SynthesizerProperties.
Context {H : Host}.

(** Every way [parse_module] can end. *)
Lemma parse_module_inv (module_name path : string) :
  (exists e, read_text path = Raise e /\ parse_module module_name path = Raise e) \/
  (exists source e, read_text path = Ok source /\ ast_parse source = Raise e /\
                    parse_module module_name path = Raise e) \/
  (exists source module,
      read_text path = Ok source /\ ast_parse source = Ok module /\
      module_has_decorator_factory (mod_body module) "register_tool" = false /\
      parse_module module_name path = Ok None) \/
  (exists source module doc,
      read_text path = Ok source /\ ast_parse source = Ok module /\
      module_has_decorator_factory (mod_body module) "register_tool" = true /\
      parse_module module_name path = Ok (Some doc)).
Proof.
  destruct (read_text path) as [source|e] eqn:Hread.
  - destruct (ast_parse source) as [module|e] eqn:Hparse.
    + destruct (module_has_decorator_factory (mod_body module) "register_tool") eqn:Hgate.
      * do 3 right. exists source, module. eexists.
        repeat split; try eassumption.
        eapply parse_module_qualifying; eassumption.
      * right. right. left. exists source, module.
        repeat split; try assumption.
        eapply parse_module_not_qualifying; eassumption.
    + right. left. exists source, e. repeat split; try assumption.
      unfold parse_module. now rewrite Hread, Hparse.
  - left. exists e. split; [reflexivity|].
    unfold parse_module. now rewrite Hread.
Qed.

Lemma parse_module_qualifying_header (module_name path source : string)
    (module : Module) :
  read_text path = Ok source ->
  ast_parse source = Ok module ->
  module_has_decorator_factory (mod_body module) "register_tool" = true ->
  exists header,
    parse_module module_name path
    = Ok (Some
        {| text :=
             header ++ Py.join Py.LF
               (non_empty_fragments
                  (map (fun elem => process_elem elem module_name)
                       (filter is_function_or_class (mod_body module))));
           metadata := [("file_name", os_path_basename path)] |}).
Proof.
  intros. eexists. eapply parse_module_qualifying; eassumption.
Qed.

Lemma process_elem_marked_occurs (s : stmt) :
  forall parent,
    element_has_decorator_factory s "register_tool" = true ->
    exists t, process_elem s parent = Py.PyStr t /\ occurs_in "Function: " t.
Proof.
  induction s as [n d b _ | n d b _ | n d b IH | e | | b _] using stmt_nested_ind;
    intros parent Hs; simpl in Hs; try discriminate.
  - eexists. split.
    + simpl. apply process_function_text. exact Hs.
    + apply occurs_in_app_r, occurs_in_refl_prefix.
  - apply existsb_exists in Hs. destruct Hs as (x & Hin & Hx).
    rewrite Forall_forall in IH.
    destruct (IH x Hin n Hx) as (t & Ht & Hocc).
    eexists. split; [apply process_elem_class|].
    apply occurs_in_join with (s := t); [|exact Hocc].
    apply in_non_empty_fragments.
    + rewrite <- Ht. exact (in_map (fun child => process_elem child n) b x Hin).
    + eapply occurs_in_truthy. exact Hocc.
Qed.

Lemma rendered_body_occurs (module_name : string) (children : list stmt) :
  module_has_decorator_factory children "register_tool" = true ->
  occurs_in "Function: "
    (Py.join Py.LF
       (non_empty_fragments
          (map (fun elem => process_elem elem module_name)
               (filter is_function_or_class children)))).
Proof.
  intro Hgate. apply existsb_exists in Hgate. destruct Hgate as (x & Hin & Hx).
  destruct (process_elem_marked_occurs x module_name Hx) as (t & Ht & Hocc).
  apply occurs_in_join with (s := t); [|exact Hocc].
  apply in_non_empty_fragments.
  - rewrite <- Ht.
    apply (in_map (fun elem => process_elem elem module_name)).
    apply filter_In. split; [exact Hin|].
    eapply element_has_function_or_class. exact Hx.
  - eapply occurs_in_truthy. exact Hocc.
Qed.

(** C1: for a module that passes the gate, [parse_module] returns a
    document whose text is [Module: ] with the module name, a space and
    a line feed, then the [Docstring: ] line when the module docstring
    is non-empty, then the line-feed join of the non-empty renderings of
    the top-level functions and classes in body order; the file name is
    the base name of the path.  With docstring [desc], a marked function
    [f] documented [does f] and an unmarked function, the text is the
    one of scenario A. *)
Theorem parse_module_qualifying_text :
  (forall module_name path source module,
      read_text path = Ok source ->
      ast_parse source = Ok module ->
      module_has_decorator_factory (mod_body module) "register_tool" = true ->
      parse_module module_name path
      = Ok (Some
          {| text :=
               ("Module: " ++ module_name ++ " " ++ Py.LF
                ++ match get_docstring (mod_body module) with
                   | Some (String c doc) => "Docstring: " ++ String c doc ++ " " ++ Py.LF
                   | _ => ""
                   end)
               ++ Py.join Py.LF
                    (non_empty_fragments
                       (map (fun elem => process_elem elem module_name)
                            (filter is_function_or_class (mod_body module))));
             metadata := [("file_name", os_path_basename path)] |})) /\
  (forall path source module df bf g dg bg,
      read_text path = Ok source ->
      ast_parse source = Ok module ->
      get_docstring (mod_body module) = Some "desc" ->
      filter is_function_or_class (mod_body module)
      = [FunctionDef "f" df bf; FunctionDef g dg bg] ->
      marked "register_tool" df ->
      get_docstring bf = Some "does f" ->
      ~ marked "register_tool" dg ->
      exists doc,
        parse_module "mod" path = Ok (Some doc) /\
        text doc = "Module: mod " ++ Py.LF ++ "Docstring: desc " ++ Py.LF
                   ++ Py.LF ++ "Function: f" ++ Py.LF ++ "does f").
Proof.
  split; [exact parse_module_qualifying|].
  intros path source module df bf g dg bg Hread Hparse Hdoc Htop Hf Hfdoc Hg.
  apply decorators_have_factory_marked in Hf.
  assert (Hg' : decorators_have_factory dg "register_tool" = false).
  { destruct (decorators_have_factory dg "register_tool") eqn:E; [|reflexivity].
    exfalso. apply Hg. now apply decorators_have_factory_marked. }
  assert (Hgate : module_has_decorator_factory (mod_body module) "register_tool" = true).
  { apply existsb_exists. exists (FunctionDef "f" df bf). split; [|exact Hf].
    assert (Hin : In (FunctionDef "f" df bf)
                     (filter is_function_or_class (mod_body module)))
      by (rewrite Htop; now left).
    apply filter_In in Hin. tauto. }
  eexists. split; [eapply parse_module_qualifying; eassumption|].
  cbn [text]. rewrite Hdoc, Htop. cbn [map non_empty_fragments flat_map].
  cbn [process_elem]. rewrite (process_function_text "f" df bf "mod" Hf), Hfdoc.
  rewrite (process_function_unmarked g dg bg "mod" Hg').
  reflexivity.
Qed.

(** C7: when reading and parsing succeed and the body holds no marked
    function reachable through classes, [parse_module] returns [None]:
    it returns, and what it returns is no document.  The [try] statement
    of the directory driver then leaves the list of documents and the
    log as they were, under either policy. *)
Theorem parse_module_unmarked_returns_None
    (module_name path source : string) (module : Module) :
  read_text path = Ok source ->
  ast_parse source = Ok module ->
  ~ contains_marked "register_tool" (mod_body module) ->
  parse_module module_name path = Ok None /\
  forall fail_on_malformed_files llama_docs log,
    try_parse_module fail_on_malformed_files module_name path llama_docs log
    = (Ok llama_docs, log).
Proof.
  intros Hread Hparse Hno.
  assert (Hnone : parse_module module_name path = Ok None).
  { eapply parse_module_not_qualifying; try eassumption.
    destruct (module_has_decorator_factory (mod_body module) "register_tool") eqn:E;
      [|reflexivity].
    exfalso. apply Hno. now apply module_has_decorator_factory_contains. }
  split; [exact Hnone|].
  intros fail llama_docs log.
  unfold try_parse_module, try_except_Exception, bind, lift, ret.
  now rewrite Hnone.
Qed.

(** C9: a document returned by [parse_module] has [Function: ] in its
    text, and has it in the part rendered from the module body, after
    the header. *)
Theorem parse_module_document_has_function
    (module_name path : string) (doc : Document) :
  parse_module module_name path = Ok (Some doc) ->
  occurs_in "Function: " (text doc) /\
  exists source module header,
    read_text path = Ok source /\
    ast_parse source = Ok module /\
    text doc
    = header ++ Py.join Py.LF
        (non_empty_fragments
           (map (fun elem => process_elem elem module_name)
                (filter is_function_or_class (mod_body module)))) /\
    occurs_in "Function: "
      (Py.join Py.LF
         (non_empty_fragments
            (map (fun elem => process_elem elem module_name)
                 (filter is_function_or_class (mod_body module))))).
Proof.
  intro Hdoc.
  destruct (parse_module_inv module_name path)
    as [(e & _ & Hr) | [(source & e & _ & _ & Hr)
       | [(source & module & _ & _ & _ & Hr)
       | (source & module & doc' & Hread & Hparse & Hgate & _)]]];
    try congruence.
  destruct (parse_module_qualifying_header module_name path source module
              Hread Hparse Hgate) as (header & Hq).
  rewrite Hdoc in Hq. injection Hq as Hq. subst doc. cbn [text].
  pose proof (rendered_body_occurs module_name (mod_body module) Hgate) as Hocc.
  split; [now apply occurs_in_app_r|].
  exists source, module, header. repeat split; assumption.
Qed.

(** C10, amended: the marker detector itself tells no node classes
    apart: on an async function it answers as on a synchronous one with
    the same decorators.  It is the callers that keep async functions
    out: an async function never passes the element test of the gate,
    is rendered as the empty string and is not among the types the
    top-level loop processes; with it or without it the gate and the
    loop give the same.  A module in which no synchronous function
    carries the marker, wherever in the tree, yields no document,
    whatever the async functions carry. *)
Theorem async_functions_invisible :
  (forall n d b factory,
      has_decorator_factory (AsyncFunctionDef n d b) factory
      = has_decorator_factory (FunctionDef n d b) factory) /\
  (forall n d b factory,
      element_has_decorator_factory (AsyncFunctionDef n d b) factory = false) /\
  (forall n d b parent, process_elem (AsyncFunctionDef n d b) parent = Py.PyStr "") /\
  in_types TAsyncFunctionDef TYPES_TO_PROCESS = false /\
  (forall before n d b after factory,
      module_has_decorator_factory (before ++ AsyncFunctionDef n d b :: after) factory
      = module_has_decorator_factory (before ++ after) factory) /\
  (forall module_name before n d b after,
      module_sub_texts module_name (before ++ AsyncFunctionDef n d b :: after) []
      = module_sub_texts module_name (before ++ after) []) /\
  (forall module_name path source module,
      read_text path = Ok source ->
      ast_parse source = Ok module ->
      existsb (marks_sync_function "register_tool") (mod_body module) = false ->
      parse_module module_name path = Ok None).
Proof.
  split; [reflexivity|].
  split; [reflexivity|]. split; [reflexivity|]. split; [reflexivity|].
  split; [intros; apply module_has_decorator_factory_async|].
  split.
  { intros. rewrite !module_sub_texts_fragments. now rewrite !filter_app. }
  intros module_name path source module Hread Hparse Hno.
  eapply parse_module_not_qualifying; try eassumption.
  destruct (module_has_decorator_factory (mod_body module) "register_tool") eqn:E;
    [|reflexivity].
  apply existsb_exists in E. destruct E as (x & Hin & Hx).
  apply element_has_marks_sync_function in Hx.
  assert (existsb (marks_sync_function "register_tool") (mod_body module) = true)
    by (apply existsb_exists; eauto).
  congruence.
Qed.

End SynthesizerProperties.

(** ** The directory driver *)

Section DriverProperties.
Context {H : Host}.

Lemma try_parse_module_returns (fail : bool) (n p : string) (doc : option Document)
    (docs : list Document) (log : list LogRecord) :
  parse_module n p = Ok doc ->
  try_parse_module fail n p docs log
  = (Ok (docs ++ match doc with Some d => [d] | None => [] end)%list, log).
Proof.
  intro Hp. unfold try_parse_module, try_except_Exception, bind, lift, ret.
  rewrite Hp. destruct doc; [reflexivity | now rewrite app_nil_r].
Qed.

Lemma try_parse_module_strict (n p : string) (e : exn)
    (docs : list Document) (log : list LogRecord) :
  parse_module n p = Raise e ->
  try_parse_module true n p docs log = (Raise e, log).
Proof.
  intro Hp. unfold try_parse_module, try_except_Exception, bind, lift, raise.
  rewrite Hp. now destruct (isinstance_Exception e).
Qed.

Lemma try_parse_module_lenient (n p : string) (e : exn)
    (docs : list Document) (log : list LogRecord) :
  parse_module n p = Raise e ->
  isinstance_Exception e = true ->
  try_parse_module false n p docs log = (Ok docs, (log ++ [warning_for p e])%list).
Proof.
  intros Hp He.
  unfold try_parse_module, try_except_Exception, bind, lift, log_warning, ret.
  now rewrite Hp, He.
Qed.

Lemma process_files_candidates (skip fail : bool) (root : string) (files : list string) :
  forall docs log,
    process_files skip fail root files docs log
    = run_candidates fail
        (map (fun file => (Py.replace file ".py" "", os_path_join root file))
             (filter (selected skip) files)) docs log.
Proof.
  induction files as [|file rest IH]; intros docs log; [reflexivity|].
  cbn [process_files filter]. unfold bind at 1, process_file, selected.
  destruct (Py.endswith file ".py"); cbn [andb].
  - destruct (skip && String.eqb file "__init__.py"); cbn [negb].
    + apply IH.
    + cbn [map run_candidates fst snd]. unfold bind.
      destruct (try_parse_module fail _ _ docs log) as [[docs'|e] log'];
        [apply IH | reflexivity].
  - apply IH.
Qed.

Lemma run_candidates_app (fail : bool) (xs ys : list (string * string)) :
  forall docs log,
    run_candidates fail (xs ++ ys) docs log
    = bind (run_candidates fail xs docs) (run_candidates fail ys) log.
Proof.
  induction xs as [|x xs IH]; intros docs log; [reflexivity|].
  cbn [app run_candidates]. unfold bind.
  destruct (try_parse_module fail (fst x) (snd x) docs log) as [[docs'|e] log'];
    [|reflexivity].
  rewrite IH. reflexivity.
Qed.

Lemma process_directory_candidates (code_dir : string) (skip fail : bool)
    (log : list LogRecord) :
  process_directory code_dir skip fail log
  = run_candidates fail (candidates code_dir skip) [] log.
Proof.
  unfold process_directory, candidates. generalize (@nil Document) as docs.
  revert log. induction (os_walk code_dir) as [|[[root dirs] files] rest IH];
    intros log docs; [reflexivity|].
  cbn [process_walk flat_map]. rewrite run_candidates_app. unfold bind.
  rewrite process_files_candidates.
  destruct (run_candidates fail _ docs log) as [[docs'|e] log'];
    [apply IH | reflexivity].
Qed.

Lemma documents_of_app (xs ys : list (string * string)) :
  documents_of (xs ++ ys) = (documents_of xs ++ documents_of ys)%list.
Proof. apply flat_map_app. Qed.

Lemma warnings_of_app (xs ys : list (string * string)) :
  warnings_of (xs ++ ys) = (warnings_of xs ++ warnings_of ys)%list.
Proof. apply flat_map_app. Qed.

Lemma warnings_of_parses (cands : list (string * string)) :
  Forall parses cands -> warnings_of cands = [].
Proof.
  induction 1 as [|c rest (doc & Hc) _ IH]; [reflexivity|].
  change (warnings_of (c :: rest)) with (warnings_of ([c] ++ rest)%list).
  rewrite warnings_of_app, IH. unfold warnings_of. simpl. now rewrite Hc.
Qed.

Lemma run_candidates_lenient (cands : list (string * string)) :
  (forall c e, In c cands -> parse_module (fst c) (snd c) = Raise e ->
               isinstance_Exception e = true) ->
  forall docs log,
    run_candidates false cands docs log
    = (Ok (docs ++ documents_of cands)%list, (log ++ warnings_of cands)%list).
Proof.
  induction cands as [|c rest IH]; intros Hexc docs log.
  - simpl. now rewrite !app_nil_r.
  - cbn [run_candidates]. unfold bind.
    change (c :: rest) with ([c] ++ rest)%list.
    rewrite documents_of_app, warnings_of_app, !app_assoc.
    unfold documents_of at 1, warnings_of at 1. cbn [flat_map]. rewrite !app_nil_r.
    destruct (parse_module (fst c) (snd c)) as [doc|e] eqn:Hc.
    + rewrite (try_parse_module_returns false _ _ doc docs log Hc).
      rewrite IH by (intros; eapply Hexc; [right|]; eassumption).
      rewrite app_nil_r. now destruct doc.
    + rewrite (try_parse_module_lenient _ _ e docs log Hc)
        by (eapply Hexc; [now left | exact Hc]).
      rewrite IH by (intros; eapply Hexc; [right|]; eassumption).
      now rewrite app_nil_r.
Qed.

Lemma run_candidates_parses (fail : bool) (cands : list (string * string)) :
  Forall parses cands ->
  forall docs log,
    run_candidates fail cands docs log = (Ok (docs ++ documents_of cands)%list, log).
Proof.
  induction 1 as [|c rest (doc & Hc) _ IH]; intros docs log.
  - simpl. now rewrite app_nil_r.
  - cbn [run_candidates]. unfold bind.
    rewrite (try_parse_module_returns fail _ _ doc docs log Hc), IH.
    change (c :: rest) with ([c] ++ rest)%list.
    rewrite documents_of_app, app_assoc. unfold documents_of at 2. cbn [flat_map].
    rewrite Hc, app_nil_r. now destruct doc.
Qed.

Lemma run_candidates_strict (before after : list (string * string))
    (c : string * string) (e : exn) :
  Forall parses before ->
  parse_module (fst c) (snd c) = Raise e ->
  forall docs log,
    run_candidates true (before ++ c :: after) docs log = (Raise e, log).
Proof.
  intros Hbefore Hc docs log.
  rewrite run_candidates_app. unfold bind at 1.
  rewrite (run_candidates_parses true before Hbefore).
  cbn [run_candidates]. unfold bind.
  now rewrite (try_parse_module_strict _ _ e _ log Hc).
Qed.

End DriverProperties.

Section Policy.
Context {H : Host}.

(** C8: [parse_module] raises exactly what the reader or the parser
    raises.  Under the strict policy [process_directory] raises the
    error of the first file that fails, with nothing logged and no list
    returned.  Under the lenient policy, when the errors are instances
    of [Exception], it returns the documents of all the other files in
    order and logs one warning, with path and error, for each failing
    file; with a single failing file the documents are those of the
    files before and after it. *)
Theorem errors_propagate_and_policy :
  (forall module_name path e,
      read_text path = Raise e -> parse_module module_name path = Raise e) /\
  (forall module_name path source e,
      read_text path = Ok source -> ast_parse source = Raise e ->
      parse_module module_name path = Raise e) /\
  (forall module_name path e,
      parse_module module_name path = Raise e ->
      read_text path = Raise e \/
      exists source, read_text path = Ok source /\ ast_parse source = Raise e) /\
  (forall code_dir skip_initpy log before c after e,
      candidates code_dir skip_initpy = (before ++ c :: after)%list ->
      Forall parses before ->
      parse_module (fst c) (snd c) = Raise e ->
      process_directory code_dir skip_initpy true log = (Raise e, log)) /\
  (forall code_dir skip_initpy log,
      (forall c e, In c (candidates code_dir skip_initpy) ->
                   parse_module (fst c) (snd c) = Raise e ->
                   isinstance_Exception e = true) ->
      process_directory code_dir skip_initpy false log
      = (Ok (documents_of (candidates code_dir skip_initpy)),
         (log ++ warnings_of (candidates code_dir skip_initpy))%list)) /\
  (forall code_dir skip_initpy log before c after e,
      candidates code_dir skip_initpy = (before ++ c :: after)%list ->
      Forall parses before ->
      Forall parses after ->
      parse_module (fst c) (snd c) = Raise e ->
      isinstance_Exception e = true ->
      process_directory code_dir skip_initpy false log
      = (Ok (documents_of before ++ documents_of after)%list,
         (log ++ [warning_for (snd c) e])%list)).
Proof.
  assert (Hlenient : forall code_dir skip_initpy log,
      (forall c e, In c (candidates code_dir skip_initpy) ->
                   parse_module (fst c) (snd c) = Raise e ->
                   isinstance_Exception e = true) ->
      process_directory code_dir skip_initpy false log
      = (Ok (documents_of (candidates code_dir skip_initpy)),
         (log ++ warnings_of (candidates code_dir skip_initpy))%list)).
  { intros code_dir skip_initpy log Hexc.
    rewrite process_directory_candidates.
    now rewrite (run_candidates_lenient _ Hexc). }
  repeat apply conj.
  - intros module_name path e Hread. unfold parse_module. now rewrite Hread.
  - intros module_name path source e Hread Hparse. unfold parse_module.
    now rewrite Hread, Hparse.
  - intros module_name path e Hraise.
    destruct (parse_module_inv module_name path)
      as [(e' & Hread & Hr) | [(source & e' & Hread & Hparse & Hr)
         | [(source & module & _ & _ & _ & Hr)
         | (source & module & doc & _ & _ & _ & Hr)]]];
      rewrite Hr in Hraise; try discriminate; injection Hraise as ->.
    + now left.
    + right. now exists source.
  - intros code_dir skip_initpy log before c after e Hc Hbefore Hraise.
    rewrite process_directory_candidates, Hc.
    now apply run_candidates_strict.
  - exact Hlenient.
  - intros code_dir skip_initpy log before c after e Hc Hbefore Hafter Hraise He.
    rewrite Hlenient.
    + rewrite Hc, documents_of_app, warnings_of_app.
      change (c :: after) with ([c] ++ after)%list.
      rewrite documents_of_app, warnings_of_app.
      rewrite (warnings_of_parses before Hbefore), (warnings_of_parses after Hafter).
      unfold documents_of at 2, warnings_of. cbn [flat_map]. rewrite Hraise.
      now rewrite !app_nil_r.
    + intros c' e' Hin Hraise'. rewrite Hc in Hin.
      apply in_app_or in Hin. destruct Hin as [Hin | [<- | Hin]].
      * rewrite Forall_forall in Hbefore. destruct (Hbefore _ Hin) as (doc & Hd).
        congruence.
      * congruence.
      * rewrite Forall_forall in Hafter. destruct (Hafter _ Hin) as (doc & Hd).
        congruence.
Qed.

End Policy.

(** ** Class nesting is flattened *)

Lemma join_cons (sep x y : string) (rest : list string) :
  Py.join sep (x :: y :: rest) = x ++ sep ++ Py.join sep (y :: rest).
Proof. reflexivity. Qed.

Lemma join_app (sep : string) (xs ys : list string) :
  xs <> [] -> ys <> [] ->
  Py.join sep (xs ++ ys) = Py.join sep xs ++ sep ++ Py.join sep ys.
Proof.
  intros Hxs Hys. induction xs as [|x [|x' xs'] IH]; [congruence | |].
  - destruct ys as [|y ys']; [congruence | reflexivity].
  - change (Py.join sep (x :: (x' :: xs') ++ ys)%list
            = Py.join sep (x :: x' :: xs') ++ sep ++ Py.join sep ys).
    change ((x' :: xs') ++ ys)%list with (x' :: (xs' ++ ys))%list.
    rewrite !join_cons, string_app_assoc, string_app_assoc.
    do 2 f_equal. apply IH. discriminate.
Qed.

Lemma joined_nil_iff (blocks : list string) : joined blocks = [] <-> blocks = [].
Proof. destruct blocks; simpl; split; congruence. Qed.

Lemma flat_map_joined_nil (groups : list (list string)) :
  flat_map joined groups = [] <-> concat groups = [].
Proof.
  induction groups as [|g rest IH]; simpl; [tauto|].
  destruct g as [|x g']; simpl; [exact IH|]. split; discriminate.
Qed.

(** Joining the joined groups is joining all their members. *)
Lemma join_flat_map_joined (groups : list (list string)) :
  Py.join Py.LF (flat_map joined groups) = Py.join Py.LF (concat groups).
Proof.
  induction groups as [|g rest IH]; [reflexivity|].
  cbn [flat_map concat]. destruct g as [|x g']; [exact IH|].
  destruct (flat_map joined rest) as [|y ys] eqn:Hrest.
  - apply flat_map_joined_nil in Hrest. rewrite Hrest, !app_nil_r. reflexivity.
  - assert (Hne : concat rest <> []).
    { intro Hnil. apply flat_map_joined_nil in Hnil. congruence. }
    cbn [joined app]. rewrite join_cons, IH.
    symmetry. apply (join_app Py.LF (x :: g') (concat rest)); [discriminate | exact Hne].
Qed.

Lemma join_truthy (sep x : string) (rest : list string) :
  Py.str_truthy x = true -> Py.str_truthy (Py.join sep (x :: rest)) = true.
Proof.
  intro Hx. destruct x as [|c x']; [discriminate|].
  destruct rest; reflexivity.
Qed.

Lemma non_empty_fragments_map {A : Type} (render : A -> Py.value) (xs : list A) :
  non_empty_fragments (map render xs)
  = flat_map (fun x => non_empty_fragments [render x]) xs.
Proof.
  induction xs as [|x rest IH]; [reflexivity|].
  cbn [map flat_map].
  change (render x :: map render rest) with ([render x] ++ map render rest)%list.
  now rewrite non_empty_fragments_app, IH.
Qed.

Lemma flat_map_ext_Forall {A B : Type} (f g : A -> list B) (xs : list A) :
  Forall (fun x => f x = g x) xs -> flat_map f xs = flat_map g xs.
Proof.
  induction 1 as [|x rest Hx _ IH]; [reflexivity|]. simpl. now rewrite Hx, IH.
Qed.

Lemma flat_map_filter_neutral {A B : Type} (keep : A -> bool) (f : A -> list B)
    (xs : list A) :
  (forall x, keep x = false -> f x = []) ->
  flat_map f (filter keep xs) = flat_map f xs.
Proof.
  intro Hdrop. induction xs as [|x rest IH]; [reflexivity|].
  simpl. destruct (keep x) eqn:Hk; simpl; [now rewrite IH|].
  now rewrite (Hdrop x Hk), IH.
Qed.

Section Flattening.
Context {H : Host}.

Lemma marked_blocks_truthy (s : stmt) :
  Forall (fun block => Py.str_truthy block = true) (marked_blocks s).
Proof.
  induction s as [n d b _ | n d b _ | n d b IH | e | | b _] using stmt_nested_ind;
    simpl; try constructor.
  - destruct (decorators_have_factory d "register_tool"); repeat constructor.
  - induction IH as [|x rest Hx _ IHrest]; simpl; [constructor|].
    apply Forall_app. split; assumption.
Qed.

Lemma joined_marked_blocks_fragment (blocks : list string) :
  Forall (fun block => Py.str_truthy block = true) blocks ->
  non_empty_fragments [Py.PyStr (Py.join Py.LF blocks)] = joined blocks.
Proof.
  intro Hall. destruct blocks as [|x rest]; [reflexivity|].
  inversion Hall as [|? ? Hx _]; subst.
  pose proof (join_truthy Py.LF x rest Hx) as Ht.
  cbn [joined]. destruct (Py.join Py.LF (x :: rest)); [discriminate | reflexivity].
Qed.

Lemma flat_map_marked_blocks_truthy (children : list stmt) :
  Forall (fun block => Py.str_truthy block = true) (flat_map marked_blocks children).
Proof.
  induction children as [|x rest IH]; simpl; [constructor|].
  apply Forall_app. split; [apply marked_blocks_truthy | exact IH].
Qed.

(** What an element contributes to the list its parent joins. *)
Lemma process_elem_fragment (s : stmt) :
  forall parent,
    non_empty_fragments [process_elem s parent] = joined (marked_blocks s).
Proof.
  induction s as [n d b _ | n d b _ | n d b IH | e | | b _] using stmt_nested_ind;
    intro parent; try reflexivity.
  - cbn [process_elem marked_blocks].
    destruct (decorators_have_factory d "register_tool") eqn:Hd.
    + rewrite (process_function_text n d b parent Hd), <- or_empty_match.
      reflexivity.
    + now rewrite (process_function_unmarked n d b parent Hd).
  - rewrite process_elem_class, non_empty_fragments_map.
    rewrite (flat_map_ext_Forall _ (fun x => joined (marked_blocks x))).
    + rewrite flat_map_concat_map with (f := fun x => joined (marked_blocks x)).
      rewrite <- (map_map marked_blocks joined), <- flat_map_concat_map.
      rewrite join_flat_map_joined, <- flat_map_concat_map.
      apply joined_marked_blocks_fragment, flat_map_marked_blocks_truthy.
    + eapply Forall_impl; [|exact IH]. intros x Hx. apply Hx.
Qed.

Lemma rendered_children_blocks (parent : string) (children : list stmt) :
  Py.join Py.LF (non_empty_fragments (map (fun x => process_elem x parent) children))
  = Py.join Py.LF (flat_map marked_blocks children).
Proof.
  rewrite non_empty_fragments_map.
  rewrite (flat_map_ext_Forall _ (fun x => joined (marked_blocks x)))
    by (apply Forall_forall; intros; apply process_elem_fragment).
  rewrite flat_map_concat_map with (f := fun x => joined (marked_blocks x)).
  rewrite <- (map_map marked_blocks joined), <- flat_map_concat_map.
  now rewrite join_flat_map_joined, <- flat_map_concat_map.
Qed.

(** X1: a class is rendered as the line-feed join of the blocks of all
    marked functions reached from it through classes, in source order:
    nesting leaves no trace, and an element is dropped by its parent
    exactly when it has no such function. *)
Theorem process_class_flattens_nesting (n : string) (d : list expr) (b : list stmt)
    (parent : string) :
  process_class (ClassDef n d b) parent
  = Py.PyStr (Py.join Py.LF (flat_map marked_blocks b)) /\
  process_elem (ClassDef n d b) parent
  = Py.PyStr (Py.join Py.LF (flat_map marked_blocks b)) /\
  (forall s, Py.truthy (process_elem s parent)
             = negb (Nat.eqb (List.length (marked_blocks s)) 0)).
Proof.
  assert (Hc : process_elem (ClassDef n d b) parent
               = Py.PyStr (Py.join Py.LF (flat_map marked_blocks b))).
  { rewrite process_elem_class. f_equal. apply rendered_children_blocks. }
  split; [exact Hc|]. split; [exact Hc|].
  intro s. pose proof (process_elem_fragment s parent) as Hf.
  destruct (marked_blocks s) as [|x rest];
    destruct (process_elem s parent) as [|[|c t]]; simpl in *;
    try reflexivity; discriminate.
Qed.

(** X2: the text of a document is the header followed by the blocks of
    all marked functions reached from the module body through classes,
    joined by line feeds. *)
Theorem parse_module_text_is_header_and_blocks
    (module_name path source : string) (module : Module) :
  read_text path = Ok source ->
  ast_parse source = Ok module ->
  module_has_decorator_factory (mod_body module) "register_tool" = true ->
  exists doc,
    parse_module module_name path = Ok (Some doc) /\
    text doc
    = ("Module: " ++ module_name ++ " " ++ Py.LF
       ++ match get_docstring (mod_body module) with
          | Some (String c docstring) =>
              "Docstring: " ++ String c docstring ++ " " ++ Py.LF
          | _ => ""
          end)
      ++ Py.join Py.LF (flat_map marked_blocks (mod_body module)).
Proof.
  intros Hread Hparse Hgate. eexists. split.
  - eapply parse_module_qualifying; eassumption.
  - cbn [text]. f_equal. rewrite rendered_children_blocks.
    f_equal. apply flat_map_filter_neutral.
    intros x Hx. destruct x; try reflexivity; discriminate.
Qed.

Lemma element_has_blocks (s : stmt) :
  element_has_decorator_factory s "register_tool"
  = negb (Nat.eqb (List.length (marked_blocks s)) 0).
Proof.
  induction s as [n d b _ | n d b _ | n d b IH | e | | b _] using stmt_nested_ind;
    try reflexivity.
  - simpl. unfold has_decorator_factory. simpl.
    now destruct (decorators_have_factory d "register_tool").
  - simpl. induction IH as [|x rest Hx _ IHrest]; [reflexivity|].
    simpl. rewrite Hx, IHrest, length_app.
    destruct (List.length (marked_blocks x)); reflexivity.
Qed.

Lemma gate_blocks (children : list stmt) :
  module_has_decorator_factory children "register_tool"
  = negb (Nat.eqb (List.length (flat_map marked_blocks children)) 0).
Proof.
  unfold module_has_decorator_factory.
  induction children as [|x rest IH]; [reflexivity|].
  simpl. rewrite element_has_blocks, IH, length_app.
  destruct (List.length (marked_blocks x)); reflexivity.
Qed.

Lemma join_blocks_truthy (blocks : list string) :
  Forall (fun block => Py.str_truthy block = true) blocks ->
  Py.str_truthy (Py.join Py.LF blocks) = negb (Nat.eqb (List.length blocks) 0).
Proof.
  intro Hall. destruct blocks as [|x rest]; [reflexivity|].
  inversion Hall as [|? ? Hx _]; subst. now apply join_truthy.
Qed.

Lemma process_elem_truthy_blocks (s : stmt) (parent : string) :
  Py.truthy (process_elem s parent)
  = negb (Nat.eqb (List.length (marked_blocks s)) 0).
Proof.
  pose proof (process_elem_fragment s parent) as Hf.
  destruct (marked_blocks s) as [|x rest];
    destruct (process_elem s parent) as [|[|c t]]; simpl in *;
    try reflexivity; discriminate.
Qed.

(** X3: the gate and the renderer agree.  A statement passes the
    element test of the gate exactly when [process_elem] renders it to a
    non-empty string; a body passes the gate exactly when a class with
    that body is rendered non-empty by [process_class], and exactly when
    the fragments the loop of [parse_module] collects from it join to a
    non-empty string.  So the gate never drops a module the renderer has
    something to say about, and never lets one through that renders
    empty. *)
Theorem gate_agrees_with_renderer (children : list stmt) (n : string)
    (d : list expr) (parent module_name : string) :
  (forall s,
      element_has_decorator_factory s "register_tool"
      = Py.truthy (process_elem s parent)) /\
  module_has_decorator_factory children "register_tool"
  = Py.truthy (process_class (ClassDef n d children) parent) /\
  module_has_decorator_factory children "register_tool"
  = Py.truthy (process_elem (ClassDef n d children) parent) /\
  module_has_decorator_factory children "register_tool"
  = Py.str_truthy (Py.join Py.LF (module_sub_texts module_name children [])).
Proof.
  assert (Hclass : module_has_decorator_factory children "register_tool"
                   = Py.truthy (process_elem (ClassDef n d children) parent)).
  { rewrite process_elem_truthy_blocks. apply gate_blocks. }
  split; [intro s; now rewrite element_has_blocks, process_elem_truthy_blocks|].
  split; [exact Hclass|]. split; [exact Hclass|].
  rewrite module_sub_texts_fragments. cbn [app].
  rewrite rendered_children_blocks.
  rewrite (flat_map_filter_neutral is_function_or_class marked_blocks children)
    by (intros x Hx; destruct x; try reflexivity; discriminate).
  rewrite join_blocks_truthy by apply flat_map_marked_blocks_truthy.
  apply gate_blocks.
Qed.

(** X4: neither the name of a class, nor its decorators, nor the parent
    name passed down reaches the output: two classes with the same body
    are rendered alike, and so is any element under two parents. *)
Theorem rendering_ignores_names (s : stmt) (n n' : string) (d d' : list expr)
    (b : list stmt) (parent parent' : string) :
  process_elem (ClassDef n d b) parent = process_elem (ClassDef n' d' b) parent' /\
  process_elem s parent = process_elem s parent'.
Proof.
  split.
  - rewrite !process_elem_class. f_equal. now rewrite !rendered_children_blocks.
  - destruct s; reflexivity.
Qed.

End Flattening.

(** ** Order does not matter to the gate *)

Lemma decorators_have_factory_app (factory : string) (xs ys : list expr) :
  decorators_have_factory (xs ++ ys) factory
  = decorators_have_factory xs factory || decorators_have_factory ys factory.
Proof.
  induction xs as [|x rest IH]; [reflexivity|].
  simpl. destruct x as [id | v a | fn args keywords | c |]; try exact IH.
  destruct fn as [id | v a | fn' args' keywords' | c |]; try exact IH.
  destruct (String.eqb id factory); [reflexivity | exact IH].
Qed.

Lemma existsb_Permutation {A : Type} (test : A -> bool) (xs ys : list A) :
  Permutation xs ys -> existsb test xs = existsb test ys.
Proof.
  induction 1 as [| x xs ys _ IH | x y xs | xs ys zs _ IH1 _ IH2]; simpl.
  - reflexivity.
  - now rewrite IH.
  - now destruct (test x), (test y).
  - now rewrite IH1.
Qed.

(** X5: the marker test and the gate do not depend on order or on
    what else is present: a decorator list or a body put together from
    two parts passes exactly when one of the parts does, and reordering
    the decorators, or the statements of a body, changes nothing. *)
Theorem gate_insensitive_to_order (factory : string) :
  (forall n b d1 d2,
      has_decorator_factory (FunctionDef n (d1 ++ d2) b) factory
      = has_decorator_factory (FunctionDef n d1 b) factory
        || has_decorator_factory (FunctionDef n d2 b) factory) /\
  (forall b1 b2,
      module_has_decorator_factory (b1 ++ b2) factory
      = module_has_decorator_factory b1 factory
        || module_has_decorator_factory b2 factory) /\
  (forall n b d d',
      Permutation d d' ->
      has_decorator_factory (FunctionDef n d b) factory
      = has_decorator_factory (FunctionDef n d' b) factory) /\
  (forall b b',
      Permutation b b' ->
      module_has_decorator_factory b factory = module_has_decorator_factory b' factory).
Proof.
  split; [intros; apply decorators_have_factory_app|].
  split; [intros; apply existsb_app|].
  split; [|intros b b' Hp; now apply existsb_Permutation].
  intros n b d d' Hp. unfold has_decorator_factory. cbn [decorator_list].
  induction Hp as [| x xs ys _ IH | x y xs | xs ys zs _ IH1 _ IH2].
  - reflexivity.
  - change (x :: xs) with ([x] ++ xs)%list. change (x :: ys) with ([x] ++ ys)%list.
    now rewrite !decorators_have_factory_app, IH.
  - change (y :: x :: xs) with ([y] ++ [x] ++ xs)%list.
    change (x :: y :: xs) with ([x] ++ [y] ++ xs)%list.
    rewrite !decorators_have_factory_app.
    now destruct (decorators_have_factory [x] factory),
                 (decorators_have_factory [y] factory).
  - now rewrite IH1.
Qed.

(** ** Which files the driver hands on, and under which name *)

Lemma endswith_iff (s suffix : string) :
  Py.endswith s suffix = true <-> exists stem, s = stem ++ suffix.
Proof.
  split.
  - induction s as [|c s' IH].
    + destruct suffix; [intros _; now exists "" | discriminate].
    + cbn [Py.endswith].
      destruct (String.eqb_spec (String c s') suffix) as [<- | _].
      * intros _. now exists "".
      * intro Hs. destruct (IH Hs) as (stem & ->). now exists (String c stem).
  - intros (stem & ->). induction stem as [|c stem' IH].
    + change ("" ++ suffix) with suffix.
      destruct suffix; cbn [Py.endswith]; now rewrite String.eqb_refl.
    + change (String c stem' ++ suffix) with (String c (stem' ++ suffix)).
      cbn [Py.endswith].
      destruct (String.eqb (String c (stem' ++ suffix)) suffix); [reflexivity | exact IH].
Qed.

Lemma prefix_dot_py_no_dot (c : ascii) (s : string) :
  Ascii.eqb c "." = false -> String.prefix ".py" (String c s) = false.
Proof.
  intro Hc. cbn [String.prefix].
  destruct (ascii_dec "." c) as [<- | _]; [discriminate | reflexivity].
Qed.

Lemma replace_dot_free_prefix (stem rest : string) :
  dot_free stem = true ->
  Py.replace (stem ++ ".py" ++ rest) ".py" "" = stem ++ Py.replace rest ".py" "".
Proof.
  unfold Py.replace. intro Hfree. induction stem as [|c stem' IH].
  - simpl. destruct rest; reflexivity.
  - simpl in Hfree. apply andb_prop in Hfree. destruct Hfree as (Hc & Hfree).
    apply negb_true_iff in Hc.
    change ((String c stem') ++ ".py" ++ rest) with (String c (stem' ++ ".py" ++ rest)).
    cbn [Py.replace_from]. rewrite (prefix_dot_py_no_dot c _ Hc).
    simpl. f_equal. apply IH. exact Hfree.
Qed.

Lemma selected_iff (skip_initpy : bool) (file : string) :
  selected skip_initpy file = true
  <-> (exists stem, file = stem ++ ".py")
      /\ (skip_initpy = true -> file <> "__init__.py").
Proof.
  unfold selected. rewrite andb_true_iff, endswith_iff, negb_true_iff.
  split; intros (Hs & Hi); (split; [exact Hs|]).
  - intros -> ->. discriminate Hi.
  - destruct skip_initpy; [|reflexivity]. simpl.
    apply String.eqb_neq. now apply Hi.
Qed.

Section Selection.
Context {H : Host}.

Lemma process_walk_candidates (skip fail : bool)
    (entries : list (string * list string * list string)) :
  forall docs log,
    process_walk skip fail entries docs log
    = run_candidates fail
        (flat_map
           (fun entry : string * list string * list string =>
              let '(root, _, files) := entry in
              map (fun file => (Py.replace file ".py" "", os_path_join root file))
                  (filter (selected skip) files))
           entries) docs log.
Proof.
  induction entries as [|[[root dirs] files] rest IH]; intros docs log; [reflexivity|].
  cbn [process_walk flat_map]. rewrite run_candidates_app. unfold bind.
  rewrite process_files_candidates.
  destruct (run_candidates fail _ docs log) as [[docs'|e] log'];
    [apply IH | reflexivity].
Qed.

Lemma filter_idempotent {A : Type} (keep : A -> bool) (xs : list A) :
  filter keep (filter keep xs) = filter keep xs.
Proof.
  induction xs as [|x rest IH]; [reflexivity|].
  simpl. destruct (keep x) eqn:Hk; simpl; rewrite ?Hk, IH; reflexivity.
Qed.

(** X6: a file is handed to [parse_module] exactly when its name ends
    in [.py] and it is not an [__init__.py] that is to be skipped; it is
    then parsed under its name with [.py] removed and the path joined
    from the directory and the name.  For any other file the step
    leaves the documents and the log as they are. *)
Theorem process_file_selects (skip_initpy fail_on_malformed_files : bool)
    (root file : string) (llama_docs : list Document) :
  ((exists stem, file = stem ++ ".py") ->
   (skip_initpy = true -> file <> "__init__.py") ->
   process_file skip_initpy fail_on_malformed_files root file llama_docs
   = try_parse_module fail_on_malformed_files (Py.replace file ".py" "")
       (os_path_join root file) llama_docs) /\
  ((~ exists stem, file = stem ++ ".py") \/
   (skip_initpy = true /\ file = "__init__.py") ->
   forall log,
     process_file skip_initpy fail_on_malformed_files root file llama_docs log
     = (Ok llama_docs, log)).
Proof.
  pose proof (selected_iff skip_initpy file) as Hsel. unfold selected in Hsel.
  split.
  - intros Hends Hinit.
    pose proof (proj2 Hsel (conj Hends Hinit)) as Hboth.
    apply andb_prop in Hboth. destruct Hboth as (Hs & Hi).
    apply negb_true_iff in Hi. unfold process_file. now rewrite Hs, Hi.
  - intros Hnot log. unfold process_file.
    destruct (Py.endswith file ".py") eqn:Hs.
    + destruct (skip_initpy && String.eqb file "__init__.py") eqn:Hi; [reflexivity|].
      exfalso. destruct (proj1 Hsel) as (Hends & Hinit); [reflexivity|].
      destruct Hnot as [Hno | (-> & ->)]; [now apply Hno | now apply Hinit].
    + reflexivity.
Qed.

(** X7: the walk over the directory tree only matters through the file
    names that are handed on: the directory names of an entry, the files
    not ending in [.py] and a skipped [__init__.py] can be removed from
    what [os.walk] yields without changing the documents, the error or
    the log. *)
Theorem process_walk_ignores_unselected (skip_initpy fail_on_malformed_files : bool)
    (entries : list (string * list string * list string))
    (llama_docs : list Document) (log : list LogRecord) :
  process_walk skip_initpy fail_on_malformed_files entries llama_docs log
  = process_walk skip_initpy fail_on_malformed_files
      (map (selected_only skip_initpy) entries) llama_docs log.
Proof.
  rewrite !process_walk_candidates. f_equal.
  induction entries as [|[[root dirs] files] rest IH]; [reflexivity|].
  cbn [map flat_map selected_only]. now rewrite filter_idempotent, IH.
Qed.

(** X8: the module name is the file name with every [.py] in it
    removed, not only the extension.  For a stem without a full stop,
    the file [stem.py] is parsed under the name [stem], and a file whose
    name goes on after [stem.py] is parsed under [stem] followed by the
    rest with its own [.py] occurrences removed. *)
Theorem module_name_of_file (skip_initpy fail_on_malformed_files : bool)
    (root stem : string) (llama_docs : list Document) :
  dot_free stem = true ->
  (selected skip_initpy (stem ++ ".py") = true ->
   process_file skip_initpy fail_on_malformed_files root (stem ++ ".py") llama_docs
   = try_parse_module fail_on_malformed_files stem
       (os_path_join root (stem ++ ".py")) llama_docs) /\
  (forall rest,
      selected skip_initpy (stem ++ ".py" ++ rest) = true ->
      process_file skip_initpy fail_on_malformed_files root
        (stem ++ ".py" ++ rest) llama_docs
      = try_parse_module fail_on_malformed_files
          (stem ++ Py.replace rest ".py" "")
          (os_path_join root (stem ++ ".py" ++ rest)) llama_docs).
Proof.
  intro Hfree.
  assert (Hgen : forall rest,
      selected skip_initpy (stem ++ ".py" ++ rest) = true ->
      process_file skip_initpy fail_on_malformed_files root
        (stem ++ ".py" ++ rest) llama_docs
      = try_parse_module fail_on_malformed_files
          (stem ++ Py.replace rest ".py" "")
          (os_path_join root (stem ++ ".py" ++ rest)) llama_docs).
  { intros rest Hsel. unfold selected in Hsel. apply andb_prop in Hsel.
    destruct Hsel as (Hends & Hinit). apply negb_true_iff in Hinit.
    unfold process_file. rewrite Hends, Hinit.
    now rewrite (replace_dot_free_prefix stem rest Hfree). }
  split; [|exact Hgen].
  intro Hsel. specialize (Hgen "").
  change (".py" ++ "") with ".py" in Hgen.
  change (Py.replace "" ".py" "") with "" in Hgen.
  rewrite string_app_empty_r in Hgen. now apply Hgen.
Qed.

End Selection.

(** ** What a whole run keeps *)

Section Runs.
Context {H : Host}.

(** The four ways the [try] statement can end. *)
Lemma try_parse_module_cases (fail : bool) (n p : string)
    (docs : list Document) (log : list LogRecord) :
  match parse_module n p with
  | Ok doc =>
      try_parse_module fail n p docs log
      = (Ok (docs ++ match doc with Some d => [d] | None => [] end)%list, log)
  | Raise e =>
      if isinstance_Exception e
      then if fail
           then try_parse_module fail n p docs log = (Raise e, log)
           else try_parse_module fail n p docs log
                = (Ok docs, (log ++ [warning_for p e])%list)
      else try_parse_module fail n p docs log = (Raise e, log)
  end.
Proof.
  destruct (parse_module n p) as [doc|e] eqn:Hp.
  - now apply try_parse_module_returns.
  - destruct (isinstance_Exception e) eqn:He.
    + destruct fail.
      * now apply try_parse_module_strict.
      * now apply try_parse_module_lenient.
    + unfold try_parse_module, try_except_Exception, bind, lift.
      now rewrite Hp, He.
Qed.

Lemma run_candidates_log (fail : bool) (cands : list (string * string)) :
  forall docs log,
  exists added,
    snd (run_candidates fail cands docs log) = (log ++ added)%list /\
    (fail = true -> added = []) /\
    Forall (fun r => exists c e,
                In c cands /\ parse_module (fst c) (snd c) = Raise e /\
                isinstance_Exception e = true /\ r = warning_for (snd c) e) added.
Proof.
  induction cands as [|c rest IH]; intros docs log.
  - exists []. simpl. rewrite app_nil_r. auto.
  - cbn [run_candidates]. unfold bind.
    pose proof (try_parse_module_cases fail (fst c) (snd c) docs log) as Hstep.
    destruct (parse_module (fst c) (snd c)) as [doc|e] eqn:Hp.
    + rewrite Hstep.
      destruct (IH (docs ++ match doc with Some d => [d] | None => [] end)%list log)
        as (added & Hlog & Hstrict & Hall).
      exists added. repeat split; try assumption.
      eapply Forall_impl; [|exact Hall].
      intros r (c' & e & Hin & Hrest). exists c', e. split; [now right | exact Hrest].
    + destruct (isinstance_Exception e) eqn:He; [destruct fail|]; rewrite Hstep.
      * exists []. simpl. rewrite app_nil_r. auto.
      * destruct (IH docs (log ++ [warning_for (snd c) e])%list)
          as (added & Hlog & _ & Hall).
        exists (warning_for (snd c) e :: added).
        split; [now rewrite Hlog, <- app_assoc|]. split; [discriminate|].
        constructor.
        -- exists c, e. repeat split; try assumption. now left.
        -- eapply Forall_impl; [|exact Hall].
           intros r (c' & e' & Hin & Hrest). exists c', e'.
           split; [now right | exact Hrest].
      * exists []. simpl. rewrite app_nil_r. auto.
Qed.

Lemma run_candidates_documents (fail : bool) (cands : list (string * string)) :
  forall docs log docs' log',
    run_candidates fail cands docs log = (Ok docs', log') ->
    exists added,
      docs' = (docs ++ added)%list /\
      Forall (fun d => exists c,
                  In c cands /\ parse_module (fst c) (snd c) = Ok (Some d)) added.
Proof.
  induction cands as [|c rest IH]; intros docs log docs' log' Hrun.
  - injection Hrun as <- _. exists []. now rewrite app_nil_r.
  - cbn [run_candidates] in Hrun. unfold bind in Hrun.
    pose proof (try_parse_module_cases fail (fst c) (snd c) docs log) as Hstep.
    destruct (parse_module (fst c) (snd c)) as [doc|e] eqn:Hp.
    + rewrite Hstep in Hrun. destruct (IH _ _ _ _ Hrun) as (added & -> & Hall).
      exists (match doc with Some d => [d] | None => [] end ++ added)%list.
      split; [now rewrite app_assoc|].
      apply Forall_app. split.
      * destruct doc as [d|]; constructor; [|constructor].
        exists c. split; [now left | exact Hp].
      * eapply Forall_impl; [|exact Hall].
        intros d (c' & Hin & Hd). exists c'. split; [now right | exact Hd].
    + destruct (isinstance_Exception e) eqn:He; [destruct fail|];
        rewrite Hstep in Hrun; try discriminate.
      destruct (IH _ _ _ _ Hrun) as (added & -> & Hall).
      exists added. split; [reflexivity|].
      eapply Forall_impl; [|exact Hall].
      intros d (c' & Hin & Hd). exists c'. split; [now right | exact Hd].
Qed.

Lemma run_candidates_strict_returns (cands : list (string * string)) :
  forall docs log docs' log',
    run_candidates true cands docs log = (Ok docs', log') ->
    Forall parses cands.
Proof.
  induction cands as [|c rest IH]; intros docs log docs' log' Hrun; [constructor|].
  cbn [run_candidates] in Hrun. unfold bind in Hrun.
  pose proof (try_parse_module_cases true (fst c) (snd c) docs log) as Hstep.
  destruct (parse_module (fst c) (snd c)) as [doc|e] eqn:Hp.
  - rewrite Hstep in Hrun. constructor; [now exists doc | eapply IH; exact Hrun].
  - destruct (isinstance_Exception e); rewrite Hstep in Hrun; discriminate.
Qed.

Lemma parse_module_document_shape (module_name path : string) (d : Document) :
  parse_module module_name path = Ok (Some d) ->
  occurs_in "Function: " (text d) /\
  (exists rest, text d = "Module: " ++ module_name ++ " " ++ Py.LF ++ rest) /\
  metadata d = [("file_name", os_path_basename path)].
Proof.
  intro Hd.
  destruct (parse_module_inv module_name path)
    as [(e & _ & Hr) | [(source & e & _ & _ & Hr)
       | [(source & module & _ & _ & _ & Hr)
       | (source & module & d' & Hread & Hparse & Hgate & _)]]];
    try congruence.
  pose proof (parse_module_qualifying module_name path source module
                Hread Hparse Hgate) as Hq.
  destruct (parse_module_qualifying_header module_name path source module
              Hread Hparse Hgate) as (header & Hh).
  pose proof (rendered_body_occurs module_name (mod_body module) Hgate) as Hocc.
  split; [|split].
  - rewrite Hd in Hh. injection Hh as ->. cbn [text]. now apply occurs_in_app_r.
  - rewrite Hd in Hq. injection Hq as ->. cbn [text]. eexists.
    rewrite !string_app_assoc. reflexivity.
  - rewrite Hd in Hq. injection Hq as ->. reflexivity.
Qed.

(** X9: [load_data] only ever adds to the log.  Under the strict policy
    it adds nothing; under the lenient one every record added is the
    warning for a file that was handed to [parse_module] and made it
    raise an [Exception], with that file's path and that exception. *)
Theorem load_data_log_discipline (code_dir : string)
    (skip_initpy fail_on_malformed_files : bool) (log : list LogRecord) :
  exists added,
    snd (load_data code_dir skip_initpy fail_on_malformed_files log)
    = (log ++ added)%list /\
    (fail_on_malformed_files = true -> added = []) /\
    Forall (fun r => exists c e,
                In c (candidates code_dir skip_initpy) /\
                parse_module (fst c) (snd c) = Raise e /\
                isinstance_Exception e = true /\
                r = warning_for (snd c) e) added.
Proof.
  unfold load_data. rewrite process_directory_candidates.
  apply run_candidates_log.
Qed.

(** X10: whatever the policy, every document [load_data] returns comes
    from a file that was handed to [parse_module]: its text starts with
    the [Module: ] line of that file's module name and has a
    [Function: ] block in it, and its [file_name] is the base name of
    that file's path. *)
Theorem load_data_documents_invariant (code_dir : string)
    (skip_initpy fail_on_malformed_files : bool)
    (log log' : list LogRecord) (docs : list Document) :
  load_data code_dir skip_initpy fail_on_malformed_files log = (Ok docs, log') ->
  Forall (fun d => exists c,
              In c (candidates code_dir skip_initpy) /\
              parse_module (fst c) (snd c) = Ok (Some d) /\
              occurs_in "Function: " (text d) /\
              (exists rest, text d = "Module: " ++ fst c ++ " " ++ Py.LF ++ rest) /\
              metadata d = [("file_name", os_path_basename (snd c))]) docs.
Proof.
  unfold load_data. rewrite process_directory_candidates. intro Hrun.
  destruct (run_candidates_documents _ _ _ _ _ _ Hrun) as (added & -> & Hall).
  simpl. eapply Forall_impl; [|exact Hall].
  intros d (c & Hin & Hd). exists c.
  split; [exact Hin|]. split; [exact Hd|].
  now apply parse_module_document_shape.
Qed.

(** X11: under the strict policy [load_data] returns a list exactly
    when [parse_module] returns on every file handed to it; and then the
    policy makes no difference: both give the documents of those files
    and leave the log as it was. *)
Theorem strict_returns_iff_all_parse (code_dir : string) (skip_initpy : bool)
    (log : list LogRecord) :
  ((exists docs log', load_data code_dir skip_initpy true log = (Ok docs, log'))
   <-> Forall parses (candidates code_dir skip_initpy)) /\
  (Forall parses (candidates code_dir skip_initpy) ->
   forall fail_on_malformed_files,
     load_data code_dir skip_initpy fail_on_malformed_files log
     = (Ok (documents_of (candidates code_dir skip_initpy)), log)).
Proof.
  assert (Hall : Forall parses (candidates code_dir skip_initpy) ->
                 forall fail,
                   load_data code_dir skip_initpy fail log
                   = (Ok (documents_of (candidates code_dir skip_initpy)), log)).
  { intros Hp fail. unfold load_data.
    rewrite process_directory_candidates. now rewrite run_candidates_parses. }
  split; [|exact Hall]. split.
  - intros (docs & log' & Hrun). unfold load_data in Hrun.
    rewrite process_directory_candidates in Hrun.
    eapply run_candidates_strict_returns. exact Hrun.
  - intro Hp. eexists. eexists. now apply Hall.
Qed.

(** X12: the lenient policy does not hold back what is not an
    [Exception]: when the files before raise nothing but [Exception]s,
    the first raise of another kind leaves [load_data], after the
    warnings for the files before have been logged, and no list is
    returned. *)
Theorem lenient_lets_non_Exception_through (code_dir : string) (skip_initpy : bool)
    (log : list LogRecord) (before after : list (string * string))
    (c : string * string) (e : exn) :
  candidates code_dir skip_initpy = (before ++ c :: after)%list ->
  (forall c' e', In c' before -> parse_module (fst c') (snd c') = Raise e' ->
                 isinstance_Exception e' = true) ->
  parse_module (fst c) (snd c) = Raise e ->
  isinstance_Exception e = false ->
  load_data code_dir skip_initpy false log
  = (Raise e, (log ++ warnings_of before)%list).
Proof.
  intros Hc Hbefore Hraise He. unfold load_data.
  rewrite process_directory_candidates, Hc, run_candidates_app. unfold bind at 1.
  rewrite (run_candidates_lenient before Hbefore).
  cbn [run_candidates]. unfold bind.
  pose proof (try_parse_module_cases false (fst c) (snd c)
                ([] ++ documents_of before)%list (log ++ warnings_of before)%list)
    as Hstep.
  rewrite Hraise, He in Hstep. now rewrite Hstep.
Qed.

End Runs.

(** ** The properties on the example host *)

Import Example.

Lemma register_tool_call_marked : marked "register_tool" [register_tool_call].
Proof.
  exists register_tool_call. split; [now left|]. exists [], []. reflexivity.
Qed.

Lemma nil_not_marked (factory : string) : ~ marked factory [].
Proof. intros (x & [] & _). Qed.

Lemma parse_module_qualifying_text_witness :
  (exists doc,
      parse_module "mod" "pkg/mod.py" = Ok (Some doc) /\
      text doc = "Module: mod " ++ Py.LF ++ "Docstring: desc " ++ Py.LF
                 ++ Py.LF ++ "Function: f" ++ Py.LF ++ "does f") /\
  parse_module "cls" "pkg/cls.py"
  = Ok (Some {| text := "Module: cls " ++ Py.LF ++ Py.LF ++ "Function: m" ++ Py.LF;
                metadata := [("file_name", "cls.py")] |}).
Proof.
  destruct (@parse_module_qualifying_text host) as (Hgeneral & Hscenario).
  split.
  - apply (Hscenario "pkg/mod.py" "<mod>" mod_tree
             [register_tool_call] [Expr (Constant (CStr "does f"))]
             "g" [] [Pass]); try reflexivity.
    + exact register_tool_call_marked.
    + apply nil_not_marked.
  - apply (Hgeneral "cls" "pkg/cls.py" "<cls>" cls_tree); reflexivity.
Defined.

Lemma process_function_marked_witness :
  process_function
    (FunctionDef "f" [register_tool_call] [Expr (Constant (CStr "does f"))]) "mod"
  = Py.PyStr (Py.LF ++ "Function: f" ++ Py.LF ++ "does f") /\
  process_function (FunctionDef "m" [register_tool_call] [Pass]) "C"
  = Py.PyStr (Py.LF ++ "Function: m" ++ Py.LF).
Proof.
  split.
  - exact (proj1 (process_function_marked "f" [register_tool_call]
                    [Expr (Constant (CStr "does f"))] "mod"
                    register_tool_call_marked)).
  - exact (proj1 (process_function_marked "m" [register_tool_call] [Pass] "C"
                    register_tool_call_marked)).
Defined.

Lemma process_class_spec_witness :
  process_class (ClassDef "C" [register_tool_call] [FunctionDef "n" [] [Pass]; Pass]) "mod"
  = Py.PyStr "".
Proof.
  apply (process_class_spec "C" [register_tool_call] [FunctionDef "n" [] [Pass]; Pass] "mod").
  intros child [<- | [<- | []]]; reflexivity.
Defined.

Lemma parse_module_unmarked_returns_None_witness :
  parse_module "plain" "pkg/plain.py" = Ok None /\
  try_parse_module true "plain" "pkg/plain.py" [] [] = (Ok [], []).
Proof.
  assert (Hno : ~ contains_marked "register_tool" (mod_body plain_tree)).
  { intro Hc. apply module_has_decorator_factory_contains in Hc. discriminate Hc. }
  assert (Hread : read_text "pkg/plain.py" = Ok "<plain>") by reflexivity.
  assert (Hparse : ast_parse "<plain>" = Ok plain_tree) by reflexivity.
  destruct (parse_module_unmarked_returns_None "plain" "pkg/plain.py" "<plain>"
              plain_tree Hread Hparse Hno) as (Hnone & Hstep).
  split; [exact Hnone | apply Hstep].
Defined.

Lemma parse_module_document_has_function_witness :
  exists doc,
    parse_module "cls" "pkg/cls.py" = Ok (Some doc) /\
    occurs_in "Function: " (text doc).
Proof.
  eexists. split; [reflexivity|].
  apply (parse_module_document_has_function "cls" "pkg/cls.py"). reflexivity.
Defined.

Lemma async_functions_invisible_witness :
  parse_module "aio" "pkg/aio.py" = Ok None.
Proof.
  apply (@async_functions_invisible host) with (source := "<aio>") (module := aio_tree);
    reflexivity.
Defined.

Lemma errors_propagate_and_policy_witness :
  parse_module "gone" "pkg/gone.py" = Raise (FileNotFoundError "pkg/gone.py") /\
  parse_module "broken" "pkg/broken.py" = Raise (SyntaxError "invalid syntax") /\
  process_directory "pkg" true true [] = (Raise (SyntaxError "invalid syntax"), []) /\
  process_directory "pkg" true false []
  = (Ok (documents_of [("mod", "pkg/mod.py")]
         ++ documents_of [("cls", "pkg/cls.py"); ("plain", "pkg/plain.py")])%list,
     [warning_for "pkg/broken.py" (SyntaxError "invalid syntax")]).
Proof.
  destruct (@errors_propagate_and_policy host)
    as (Hread & Hparse & _ & Hstrict & _ & Hlenient).
  assert (Hbefore : Forall parses [("mod", "pkg/mod.py")]).
  { repeat constructor. eexists. reflexivity. }
  assert (Hafter : Forall parses [("cls", "pkg/cls.py"); ("plain", "pkg/plain.py")]).
  { repeat constructor; eexists; reflexivity. }
  split; [apply Hread; reflexivity|].
  split; [apply (Hparse "broken" "pkg/broken.py" "def ("); reflexivity|].
  split.
  - apply (Hstrict "pkg" true [] [("mod", "pkg/mod.py")] ("broken", "pkg/broken.py")
             [("cls", "pkg/cls.py"); ("plain", "pkg/plain.py")]);
      [reflexivity | exact Hbefore | reflexivity].
  - apply (Hlenient "pkg" true [] [("mod", "pkg/mod.py")] ("broken", "pkg/broken.py")
             [("cls", "pkg/cls.py"); ("plain", "pkg/plain.py")]);
      [reflexivity | exact Hbefore | exact Hafter | reflexivity | reflexivity].
Defined.

Lemma parse_module_text_is_header_and_blocks_witness :
  exists doc,
    parse_module "cls" "pkg/cls.py" = Ok (Some doc) /\
    text doc = "Module: cls " ++ Py.LF ++ Py.LF ++ "Function: m" ++ Py.LF.
Proof.
  assert (Hread : read_text "pkg/cls.py" = Ok "<cls>") by reflexivity.
  assert (Hparse : ast_parse "<cls>" = Ok cls_tree) by reflexivity.
  assert (Hgate : module_has_decorator_factory (mod_body cls_tree) "register_tool" = true)
    by reflexivity.
  destruct (parse_module_text_is_header_and_blocks "cls" "pkg/cls.py" "<cls>" cls_tree
              Hread Hparse Hgate) as (doc & Hdoc & Htext).
  exists doc. split; [exact Hdoc|]. rewrite Htext. reflexivity.
Defined.

Lemma gate_insensitive_to_order_witness :
  has_decorator_factory
    (FunctionDef "f" [Name "staticmethod"; register_tool_call] [Pass]) "register_tool"
  = has_decorator_factory
      (FunctionDef "f" [register_tool_call; Name "staticmethod"] [Pass]) "register_tool" /\
  module_has_decorator_factory [Pass; FunctionDef "f" [register_tool_call] [Pass]]
    "register_tool"
  = module_has_decorator_factory [FunctionDef "f" [register_tool_call] [Pass]; Pass]
      "register_tool".
Proof.
  destruct (gate_insensitive_to_order "register_tool") as (_ & _ & Hdecorators & Hbody).
  split.
  - apply Hdecorators. apply perm_swap.
  - apply Hbody. apply perm_swap.
Defined.

Lemma module_name_of_file_witness :
  process_file true false "pkg" "tools.py" []
  = try_parse_module false "tools" (os_path_join "pkg" "tools.py") [] /\
  process_file true false "pkg" "tools.py.bak.py" []
  = try_parse_module false "tools.bak" (os_path_join "pkg" "tools.py.bak.py") [].
Proof.
  assert (Hfree : dot_free "tools" = true) by reflexivity.
  destruct (module_name_of_file true false "pkg" "tools" [] Hfree) as (Hplain & Hmore).
  split.
  - apply Hplain. reflexivity.
  - apply (Hmore ".bak.py"). reflexivity.
Defined.

Lemma load_data_documents_invariant_witness :
  exists docs,
    fst (load_data "pkg" true false []) = Ok docs /\
    List.length docs = 2 /\
    Forall (fun d => occurs_in "Function: " (text d)) docs.
Proof.
  eexists. split; [reflexivity|]. split; [reflexivity|].
  assert (Hrun : load_data "pkg" true false []
                 = (Ok (documents_of [("mod", "pkg/mod.py"); ("cls", "pkg/cls.py")]),
                    [warning_for "pkg/broken.py" (SyntaxError "invalid syntax")]))
    by reflexivity.
  pose proof (load_data_documents_invariant "pkg" true false [] _ _ Hrun) as Hall.
  eapply Forall_impl; [|exact Hall].
  intros d (c & _ & _ & Hocc & _). exact Hocc.
Defined.

Lemma strict_returns_iff_all_parse_witness :
  @load_data Nested.host "src" true true []
  = (Ok (@documents_of Nested.host
           [("mod", "src/mod.py"); ("cls", "src/util/cls.py");
            ("plain", "src/util/plain.py")]), []) /\
  @load_data Nested.host "src" true false []
  = @load_data Nested.host "src" true true [].
Proof.
  assert (Hall : Forall (@parses Nested.host) (@candidates Nested.host "src" true)).
  { change (@candidates Nested.host "src" true)
      with [("mod", "src/mod.py"); ("cls", "src/util/cls.py");
            ("plain", "src/util/plain.py")].
    repeat constructor; eexists; reflexivity. }
  destruct (@strict_returns_iff_all_parse Nested.host "src" true []) as (_ & Hsame).
  split.
  - exact (Hsame Hall true).
  - now rewrite (Hsame Hall true), (Hsame Hall false).
Defined.

Lemma lenient_lets_non_Exception_through_witness :
  @load_data Nested.host "bad" true false []
  = (Raise KeyboardInterrupt,
     [@warning_for Nested.host "bad/b.py" (SyntaxError "invalid syntax")]).
Proof.
  apply (@lenient_lets_non_Exception_through Nested.host "bad" true []
           [("a", "bad/a.py"); ("b", "bad/b.py")] [("d", "bad/d.py")]
           ("c", "bad/c.py") KeyboardInterrupt).
  - reflexivity.
  - intros c' e' [<- | [<- | []]] Hraise; vm_compute in Hraise;
      [discriminate Hraise | injection Hraise as <-; reflexivity].
  - reflexivity.
  - reflexivity.
Defined.

Lemma process_file_selects_witness :
  process_file true false "pkg" "cls.py" []
  = try_parse_module false "cls" (os_path_join "pkg" "cls.py") [] /\
  process_file true false "pkg" "__init__.py" [] [] = (Ok [], []) /\
  process_file false false "pkg" "notes.txt" [] [] = (Ok [], []).
Proof.
  split; [|split].
  - apply (proj1 (process_file_selects true false "pkg" "cls.py" [])).
    + now exists "cls".
    + discriminate.
  - apply (proj2 (process_file_selects true false "pkg" "__init__.py" [])).
    right. split; reflexivity.
  - apply (proj2 (process_file_selects false false "pkg" "notes.txt" [])).
    left. intros (stem & Hstem).
    assert (Hends : Py.endswith "notes.txt" ".py" = true)
      by (apply endswith_iff; now exists stem).
    discriminate Hends.
Defined.

(** C10 as first stated has the marker detector match synchronous
    function nodes only.  It has no test on the class of the node: on an
    async function carrying the marker it answers true, and
    [process_function], handed that node, renders it. *)
Lemma marker_detector_accepts_async :
  has_decorator_factory
    (AsyncFunctionDef "fetch" [Call (Name "register_tool") [] []] [Pass])
    "register_tool" = true /\
  isinstance (AsyncFunctionDef "fetch" [Call (Name "register_tool") [] []] [Pass])
    TFunctionDef = false /\
  process_function
    (AsyncFunctionDef "fetch" [Call (Name "register_tool") [] []] [Pass]) "mod"
  = Py.PyStr (Py.LF ++ "Function: fetch" ++ Py.LF) /\
  ~ (forall (node : stmt) (factory : string),
        has_decorator_factory node factory = true ->
        isinstance node TFunctionDef = true).
Proof.
  repeat split.
  intro Honly.
  specialize (Honly
    (AsyncFunctionDef "fetch" [Call (Name "register_tool") [] []] [Pass])
    "register_tool" eq_refl).
  discriminate Honly.
Qed.
